(** * Dekhao Lab: the generation gateway and the workflow orchestrator

    A shallow embedding of [src/services/geminiService.ts] and of the
    handlers of [src/App.tsx], with the properties of the specification
    stated and settled over it.

    - JavaScript strings are sequences of UTF-16 code units ([jsstring]).
    - The handlers are written in a state-and-exception monad [M] over a
      [Store]: the React state of the component plus the log of the effects
      that leave the program (provider calls, console output, downloads).
    - Everything the program obtains from outside its own code (the answers
      of the AI provider, the clock, the texts of engine-raised errors) is
      read from an [Env]. *)

From Stdlib Require Import List NArith ZArith Bool Ascii String Lia.
From Stdlib Require Import DecimalString.
Import ListNotations.

Set Warnings "-register-all".

Local Open Scope N_scope.
Local Open Scope list_scope.

(* ================================================================== *)
(** ** JavaScript strings *)

Module Js.

(** A string is its sequence of UTF-16 code units. *)
Definition jsstring := list N.

(** An ASCII literal of the source. *)
Definition lit (s : string) : jsstring :=
  map N_of_ascii (list_ascii_of_string s).

(** The code unit of the double quote, and an ASCII literal in which every
    apostrophe stands for a double quote (used to write JSON payloads). *)
Definition dq : N := 34.
Definition quoted (s : string) : jsstring :=
  map (fun c => if c =? 39 then dq else c) (lit s).

(** [!s] on a string: only the empty string is falsy. *)
Definition falsy (s : jsstring) : bool :=
  match s with [] => true | _ :: _ => false end.

(** ECMAScript [WhiteSpace] and [LineTerminator] code points, the ones
    [String.prototype.trim] strips. All of them lie in the BMP. *)
Definition is_js_space (c : N) : bool :=
  (c =? 9) || (c =? 10) || (c =? 11) || (c =? 12) || (c =? 13) || (c =? 32)
  || (c =? 160) || (c =? 5760) || ((8192 <=? c) && (c <=? 8202))
  || (c =? 8232) || (c =? 8233) || (c =? 8239) || (c =? 8287)
  || (c =? 12288) || (c =? 65279).

Fixpoint trimStart (s : jsstring) : jsstring :=
  match s with
  | c :: s' => if is_js_space c then trimStart s' else s
  | [] => []
  end.

Definition trimEnd (s : jsstring) : jsstring := rev (trimStart (rev s)).

(** [s.trim()] *)
Definition trim (s : jsstring) : jsstring := trimEnd (trimStart s).

(** [s.split(sep)] for a separator of one code unit: the pieces between the
    occurrences of [sep]; never empty ([''.split(',')] is [['']]). *)
Fixpoint split (sep : N) (s : jsstring) : list jsstring :=
  match s with
  | [] => [[]]
  | c :: s' =>
      if c =? sep then [] :: split sep s'
      else match split sep s' with
           | p :: ps => (c :: p) :: ps
           | [] => [[c]]
           end
  end.

(** [xs[i]]: [None] is [undefined]. *)
Definition at_index {A : Type} (xs : list A) (i : nat) : option A := nth_error xs i.

(** The decimal digits of an integer: what a template literal prints for
    an integral Number of magnitude below 10^21. *)
Definition decimal (z : Z) : jsstring :=
  lit (NilEmpty.string_of_int (Z.to_int z)).

(** [hay] textually contains [needle]. *)
Definition includes (needle hay : jsstring) : Prop :=
  exists pre post, hay = pre ++ needle ++ post.

Definition eqb (a b : jsstring) : bool :=
  if list_eq_dec N.eq_dec a b then true else false.

End Js.
Import Js.

(* ================================================================== *)
(** ** JSON values and [JSON.parse] *)

Module Json.

(** A JSON value as [JSON.parse] builds it. A number is kept as the lexeme
    that denotes it; an object as its members, one per key. *)
Inductive json : Type :=
| JNull
| JBool (b : bool)
| JNumber (lexeme : jsstring)
| JString (s : jsstring)
| JArray (items : list json)
| JObject (members : list (jsstring * json)).

(** Own property [k] of an object's members. *)
Fixpoint member (k : jsstring) (ms : list (jsstring * json)) : option json :=
  match ms with
  | [] => None
  | (k', v) :: ms' => if Js.eqb k k' then Some v else member k ms'
  end.

(** Defining property [k]: a repeated key overwrites the earlier value. *)
Fixpoint define (k : jsstring) (v : json) (ms : list (jsstring * json))
  : list (jsstring * json) :=
  match ms with
  | [] => [(k, v)]
  | (k', v') :: ms' =>
      if Js.eqb k k' then (k, v) :: ms' else (k', v') :: define k v ms'
  end.

(** Outcome of a parsing function: a value and the unread input, a syntax
    error, or recursion budget exhausted (shown below never to happen). *)
Inductive parsed (A : Type) : Type :=
| Done (a : A) (rest : jsstring)
| Malformed
| Starved.
Arguments Done {A} a rest.
Arguments Malformed {A}.
Arguments Starved {A}.

(** JSON white space: tab, line feed, carriage return, space. *)
Definition is_json_space (c : N) : bool :=
  (c =? 9) || (c =? 10) || (c =? 13) || (c =? 32).

Fixpoint skip_ws (s : jsstring) : jsstring :=
  match s with
  | c :: s' => if is_json_space c then skip_ws s' else s
  | [] => []
  end.

Definition is_digit (c : N) : bool := (48 <=? c) && (c <=? 57).

Fixpoint digits (s : jsstring) : jsstring * jsstring :=
  match s with
  | c :: s' =>
      if is_digit c then let (ds, r) := digits s' in (c :: ds, r) else ([], s)
  | [] => ([], [])
  end.

Definition hexval (c : N) : option N :=
  if (48 <=? c) && (c <=? 57) then Some (c - 48)
  else if (65 <=? c) && (c <=? 70) then Some (c - 55)
  else if (97 <=? c) && (c <=? 102) then Some (c - 87)
  else None.

(** The code unit denoted by the single-character escape [\e]. *)
Definition escape (e : N) : option N :=
  if e =? 34 then Some 34          (* quote *)
  else if e =? 92 then Some 92     (* backslash *)
  else if e =? 47 then Some 47     (* slash *)
  else if e =? 98 then Some 8      (* b: backspace *)
  else if e =? 102 then Some 12    (* f: form feed *)
  else if e =? 110 then Some 10    (* n: line feed *)
  else if e =? 114 then Some 13    (* r: carriage return *)
  else if e =? 116 then Some 9     (* t: tab *)
  else None.

Definition push (c : N) (r : option (jsstring * jsstring))
  : option (jsstring * jsstring) :=
  match r with
  | Some (str, rest) => Some (c :: str, rest)
  | None => None
  end.

(** The characters of a string after its opening quote, up to and
    including the closing quote. *)
Fixpoint parse_chars (s : jsstring) : option (jsstring * jsstring) :=
  match s with
  | [] => None
  | c :: s1 =>
      if c =? 34 then Some ([], s1)
      else if c =? 92 then
        match s1 with
        | [] => None
        | e :: s2 =>
            if e =? 117 then
              match s2 with
              | h1 :: h2 :: h3 :: h4 :: s3 =>
                  match hexval h1, hexval h2, hexval h3, hexval h4 with
                  | Some a, Some b, Some c', Some d =>
                      push (((a * 16 + b) * 16 + c') * 16 + d) (parse_chars s3)
                  | _, _, _, _ => None
                  end
              | _ => None
              end
            else
              match escape e with
              | Some u => push u (parse_chars s2)
              | None => None
              end
        end
      else if c <? 32 then None
      else push c (parse_chars s1)
  end.

(** A number: an optional minus; an integer part, a single zero or a
    non-zero digit followed by digits; an optional fraction, a dot followed
    by one digit or more; an optional exponent, e or E, an optional sign and
    one digit or more. *)
Definition parse_int (s : jsstring) : option (jsstring * jsstring) :=
  match s with
  | c :: r =>
      if c =? 48 then Some ([c], r)
      else if is_digit c then let (ds, r') := digits r in Some (c :: ds, r')
      else None
  | [] => None
  end.

Definition parse_frac (s : jsstring) : option (jsstring * jsstring) :=
  match s with
  | c :: r =>
      if c =? 46 then
        match digits r with
        | ([], _) => None
        | (ds, r') => Some (c :: ds, r')
        end
      else Some ([], s)
  | [] => Some ([], s)
  end.

Definition parse_exp (s : jsstring) : option (jsstring * jsstring) :=
  match s with
  | c :: r =>
      if (c =? 101) || (c =? 69) then
        let (sign, r1) :=
          match r with
          | g :: r0 => if (g =? 43) || (g =? 45) then ([g], r0) else ([], r)
          | [] => ([], r)
          end in
        match digits r1 with
        | ([], _) => None
        | (ds, r') => Some (c :: sign ++ ds, r')
        end
      else Some ([], s)
  | [] => Some ([], s)
  end.

Definition parse_number (s : jsstring) : option (jsstring * jsstring) :=
  let (sign, s0) :=
    match s with
    | c :: r => if c =? 45 then ([c], r) else ([], s)
    | [] => ([], s)
    end in
  match parse_int s0 with
  | None => None
  | Some (i, s1) =>
      match parse_frac s1 with
      | None => None
      | Some (f, s2) =>
          match parse_exp s2 with
          | None => None
          | Some (e, s3) => Some (sign ++ i ++ f ++ e, s3)
          end
      end
  end.

(** The rest of [s] after the keyword [kw], when [s] starts with it. *)
Fixpoint after (kw s : jsstring) : option jsstring :=
  match kw, s with
  | [], _ => Some s
  | k :: kw', c :: s' => if c =? k then after kw' s' else None
  | _ :: _, [] => None
  end.

Definition keyword (kw : jsstring) (v : json) (s : jsstring) : parsed json :=
  match after kw s with
  | Some r => Done v r
  | None => Malformed
  end.

(** Recursive descent over the JSON grammar. [parse_value] reads one value
    at the head of [s]; [parse_elements] and [parse_members] read the
    remainder of an array or object whose first element starts at [s]. *)
Fixpoint parse_value (fuel : nat) (s : jsstring) : parsed json :=
  match fuel with
  | O => Starved
  | S fuel' =>
      match s with
      | [] => Malformed
      | c :: s1 =>
          if c =? 123 then
            match skip_ws s1 with
            | c2 :: r =>
                if c2 =? 125 then Done (JObject []) r
                else parse_members fuel' (c2 :: r) []
            | [] => Malformed
            end
          else if c =? 91 then
            match skip_ws s1 with
            | c2 :: r =>
                if c2 =? 93 then Done (JArray []) r
                else parse_elements fuel' (c2 :: r) []
            | [] => Malformed
            end
          else if c =? 34 then
            match parse_chars s1 with
            | Some (str, r) => Done (JString str) r
            | None => Malformed
            end
          else if c =? 110 then keyword (lit "ull") JNull s1
          else if c =? 116 then keyword (lit "rue") (JBool true) s1
          else if c =? 102 then keyword (lit "alse") (JBool false) s1
          else
            match parse_number s with
            | Some (lexeme, r) => Done (JNumber lexeme) r
            | None => Malformed
            end
      end
  end

with parse_elements (fuel : nat) (s : jsstring) (acc : list json) : parsed json :=
  match fuel with
  | O => Starved
  | S fuel' =>
      match parse_value fuel' s with
      | Done v r =>
          match skip_ws r with
          | c :: r1 =>
              if c =? 44 then parse_elements fuel' (skip_ws r1) (acc ++ [v])
              else if c =? 93 then Done (JArray (acc ++ [v])) r1
              else Malformed
          | [] => Malformed
          end
      | Malformed => Malformed
      | Starved => Starved
      end
  end

with parse_members (fuel : nat) (s : jsstring) (acc : list (jsstring * json))
  : parsed json :=
  match fuel with
  | O => Starved
  | S fuel' =>
      match s with
      | c :: s1 =>
          if c =? 34 then
            match parse_chars s1 with
            | Some (key, r) =>
                match skip_ws r with
                | c2 :: r1 =>
                    if c2 =? 58 then
                      match parse_value fuel' (skip_ws r1) with
                      | Done v r2 =>
                          match skip_ws r2 with
                          | c3 :: r3 =>
                              if c3 =? 44 then
                                parse_members fuel' (skip_ws r3) (define key v acc)
                              else if c3 =? 125 then
                                Done (JObject (define key v acc)) r3
                              else Malformed
                          | [] => Malformed
                          end
                      | Malformed => Malformed
                      | Starved => Starved
                      end
                    else Malformed
                | [] => Malformed
                end
            | None => Malformed
            end
          else Malformed
      | [] => Malformed
      end
  end.

(** [JSON.parse(text)]: one value between optional white space; [None] is
    the [SyntaxError]. *)
Definition JSON_parse (text : jsstring) : option json :=
  let s := skip_ws text in
  match parse_value (S (2 * List.length s)) s with
  | Done v r => match skip_ws r with [] => Some v | _ :: _ => None end
  | Malformed => None
  | Starved => None
  end.

End Json.
Import Json.

(* ================================================================== *)
(** ** The provider SDK as the gateway sees it *)

Module Sdk.

Inductive Modality := IMAGE | TEXT.

(** [Type.STRING] and [Type.OBJECT] schemas. *)
Inductive Schema :=
| STRING
| OBJECT (properties : list (jsstring * Schema)) (required : list jsstring).

(** [inlineData]: both fields are optional in a response. *)
Record Blob := { data : option jsstring; mimeType : option jsstring }.

(** A content part, of a request or of a response. *)
Record Part := { inlineData : option Blob; text : option jsstring }.

Inductive Contents :=
| Prompt (s : jsstring)
| Parts (parts : list Part).

Record Config := {
  responseMimeType : option jsstring;
  responseSchema : option Schema;
  responseModalities : option (list Modality)
}.

Record GenerateContentParameters := {
  model : jsstring;
  contents : Contents;
  config : Config
}.

Record GenerateImagesParameters := {
  images_model : jsstring;
  prompt : jsstring;
  numberOfImages : N;
  outputMimeType : jsstring;
  aspectRatio : jsstring
}.

Record Content := { parts : option (list Part) }.
Record Candidate := { content : option Content }.

(** [response_text] is what the accessor [response.text] evaluates to. *)
Record GenerateContentResponse := {
  response_text : option jsstring;
  candidates : option (list Candidate)
}.

Record Image := { imageBytes : option jsstring }.
Record GeneratedImage := { image : option Image }.
Record GenerateImagesResponse := { generatedImages : option (list GeneratedImage) }.

Inductive Request :=
| GenerateContent (p : GenerateContentParameters)
| GenerateImages (p : GenerateImagesParameters).

End Sdk.

(* ================================================================== *)
(** ** Component state, effects and environment *)

(** A thrown value: an [Error] instance with its message, or anything else. *)
Inductive Thrown :=
| ErrorObject (message : jsstring)
| OtherValue.

(** Errors the engine raises by itself; their texts are engine-defined. *)
Inductive Fault :=
| ReadOfUndefined (property : jsstring)
| ReadOfNull (property : jsstring)
| NotIterable
| BadJson (source : jsstring).

Record UserImage := { data : jsstring; mimeType : jsstring; name : jsstring }.

(** The [useState] cells of [App]. [generatedContent] holds [JNull] for
    [null]. *)
Record AppState := {
  videoIdea : jsstring;
  generatedContent : json;
  thumbnailUrl : jsstring;
  userImage : option UserImage;
  thumbnailStyle : jsstring;
  thumbnailPrompt : jsstring;
  editPrompt : jsstring;
  isLoading : bool;
  isTextLoading : bool;
  isThumbnailLoading : bool;
  error : jsstring;
  copiedStates : list (jsstring * bool)
}.

(** The state of a freshly mounted component. *)
Definition initialState : AppState := {|
  videoIdea := [];
  generatedContent := JNull;
  thumbnailUrl := [];
  userImage := None;
  thumbnailStyle := lit "Cinematic";
  thumbnailPrompt := [];
  editPrompt := [];
  isLoading := false;
  isTextLoading := false;
  isThumbnailLoading := false;
  error := [];
  copiedStates := []
|}.

(** Effects that leave the program, in the order they happen. A provider
    call records the component state on screen while it is awaited. *)
Inductive Event :=
| Requested (rq : Sdk.Request) (shown : AppState)
| ConsoleError (label : option jsstring) (err : Thrown)
| Downloaded (href download : jsstring).

(** What the code obtains from outside: the provider's answer to each call
    (which may depend on everything that happened before), the clock, the
    message of each engine-raised error, and the engine's string conversion
    of a value that is not a string ([None] is [undefined]). *)
Record Env := {
  generateContent_answer :
    list Event -> Sdk.GenerateContentParameters -> Thrown + Sdk.GenerateContentResponse;
  generateImages_answer :
    list Event -> Sdk.GenerateImagesParameters -> Thrown + Sdk.GenerateImagesResponse;
  Date_now : list Event -> Z;
  fault_message : Fault -> jsstring;
  ToString : option json -> Thrown + jsstring
}.

Record Store := { ui : AppState; events : list Event }.

(** The provider calls among a list of events. *)
Fixpoint requests (evs : list Event) : list Sdk.Request :=
  match evs with
  | [] => []
  | Requested rq _ :: evs' => rq :: requests evs'
  | _ :: evs' => requests evs'
  end.

(* ------------------------------------------------------------------ *)
(** *** The monad of the handlers *)

Inductive completion (A : Type) : Type :=
| Normal (a : A)
| Throw (e : Thrown).
Arguments Normal {A} a.
Arguments Throw {A} e.

Definition M (A : Type) : Type := Store -> Store * completion A.

Definition ret {A} (a : A) : M A := fun st => (st, Normal a).

Definition throw {A} (e : Thrown) : M A := fun st => (st, Throw e).

Definition bind {A B} (m : M A) (k : A -> M B) : M B :=
  fun st =>
    match m st with
    | (st', Normal a) => k a st'
    | (st', Throw e) => (st', Throw e)
    end.

Declare Scope js_scope.
Delimit Scope js_scope with js.
Notation "x <- m ;; k" := (bind m (fun x => k))
  (at level 61, m at next level, right associativity) : js_scope.
Notation "m ;; k" := (bind m (fun _ => k))
  (at level 61, right associativity) : js_scope.
Local Open Scope js_scope.

(** [try { body } catch (e) { handler e }] *)
Definition try_catch {A} (body : M A) (handler : Thrown -> M A) : M A :=
  fun st =>
    match body st with
    | (st', Normal a) => (st', Normal a)
    | (st', Throw e) => handler e st'
    end.

(** [try { body } finally { finalizer }] *)
Definition try_finally {A} (body : M A) (finalizer : M unit) : M A :=
  fun st =>
    match body st with
    | (st1, r) =>
        match finalizer st1 with
        | (st2, Normal _) => (st2, r)
        | (st2, Throw e) => (st2, Throw e)
        end
    end.

Definition emit (ev : Event) : M unit :=
  fun st => ({| ui := ui st; events := events st ++ [ev] |}, Normal tt).

Definition update (f : AppState -> AppState) : M unit :=
  fun st => ({| ui := f (ui st); events := events st |}, Normal tt).

(** [console.error(label, err)] and [console.error(err)] *)
Definition console_error (label : option jsstring) (err : Thrown) : M unit :=
  emit (ConsoleError label err).

(* ------------------------------------------------------------------ *)
(** *** The state setters used by the handlers *)

Definition setGeneratedContent (v : json) : M unit :=
  update (fun s =>
    {| videoIdea := videoIdea s; generatedContent := v;
       thumbnailUrl := thumbnailUrl s; userImage := userImage s;
       thumbnailStyle := thumbnailStyle s; thumbnailPrompt := thumbnailPrompt s;
       editPrompt := editPrompt s; isLoading := isLoading s;
       isTextLoading := isTextLoading s;
       isThumbnailLoading := isThumbnailLoading s; error := error s;
       copiedStates := copiedStates s |}).

Definition setThumbnailUrl (v : jsstring) : M unit :=
  update (fun s =>
    {| videoIdea := videoIdea s; generatedContent := generatedContent s;
       thumbnailUrl := v; userImage := userImage s;
       thumbnailStyle := thumbnailStyle s; thumbnailPrompt := thumbnailPrompt s;
       editPrompt := editPrompt s; isLoading := isLoading s;
       isTextLoading := isTextLoading s;
       isThumbnailLoading := isThumbnailLoading s; error := error s;
       copiedStates := copiedStates s |}).

Definition setThumbnailPrompt (v : jsstring) : M unit :=
  update (fun s =>
    {| videoIdea := videoIdea s; generatedContent := generatedContent s;
       thumbnailUrl := thumbnailUrl s; userImage := userImage s;
       thumbnailStyle := thumbnailStyle s; thumbnailPrompt := v;
       editPrompt := editPrompt s; isLoading := isLoading s;
       isTextLoading := isTextLoading s;
       isThumbnailLoading := isThumbnailLoading s; error := error s;
       copiedStates := copiedStates s |}).

Definition setEditPrompt (v : jsstring) : M unit :=
  update (fun s =>
    {| videoIdea := videoIdea s; generatedContent := generatedContent s;
       thumbnailUrl := thumbnailUrl s; userImage := userImage s;
       thumbnailStyle := thumbnailStyle s; thumbnailPrompt := thumbnailPrompt s;
       editPrompt := v; isLoading := isLoading s;
       isTextLoading := isTextLoading s;
       isThumbnailLoading := isThumbnailLoading s; error := error s;
       copiedStates := copiedStates s |}).

Definition setIsLoading (v : bool) : M unit :=
  update (fun s =>
    {| videoIdea := videoIdea s; generatedContent := generatedContent s;
       thumbnailUrl := thumbnailUrl s; userImage := userImage s;
       thumbnailStyle := thumbnailStyle s; thumbnailPrompt := thumbnailPrompt s;
       editPrompt := editPrompt s; isLoading := v;
       isTextLoading := isTextLoading s;
       isThumbnailLoading := isThumbnailLoading s; error := error s;
       copiedStates := copiedStates s |}).

Definition setIsTextLoading (v : bool) : M unit :=
  update (fun s =>
    {| videoIdea := videoIdea s; generatedContent := generatedContent s;
       thumbnailUrl := thumbnailUrl s; userImage := userImage s;
       thumbnailStyle := thumbnailStyle s; thumbnailPrompt := thumbnailPrompt s;
       editPrompt := editPrompt s; isLoading := isLoading s;
       isTextLoading := v;
       isThumbnailLoading := isThumbnailLoading s; error := error s;
       copiedStates := copiedStates s |}).

Definition setIsThumbnailLoading (v : bool) : M unit :=
  update (fun s =>
    {| videoIdea := videoIdea s; generatedContent := generatedContent s;
       thumbnailUrl := thumbnailUrl s; userImage := userImage s;
       thumbnailStyle := thumbnailStyle s; thumbnailPrompt := thumbnailPrompt s;
       editPrompt := editPrompt s; isLoading := isLoading s;
       isTextLoading := isTextLoading s;
       isThumbnailLoading := v; error := error s;
       copiedStates := copiedStates s |}).

Definition setError (v : jsstring) : M unit :=
  update (fun s =>
    {| videoIdea := videoIdea s; generatedContent := generatedContent s;
       thumbnailUrl := thumbnailUrl s; userImage := userImage s;
       thumbnailStyle := thumbnailStyle s; thumbnailPrompt := thumbnailPrompt s;
       editPrompt := editPrompt s; isLoading := isLoading s;
       isTextLoading := isTextLoading s;
       isThumbnailLoading := isThumbnailLoading s; error := v;
       copiedStates := copiedStates s |}).

Definition setCopiedStates (v : list (jsstring * bool)) : M unit :=
  update (fun s =>
    {| videoIdea := videoIdea s; generatedContent := generatedContent s;
       thumbnailUrl := thumbnailUrl s; userImage := userImage s;
       thumbnailStyle := thumbnailStyle s; thumbnailPrompt := thumbnailPrompt s;
       editPrompt := editPrompt s; isLoading := isLoading s;
       isTextLoading := isTextLoading s;
       isThumbnailLoading := isThumbnailLoading s; error := error s;
       copiedStates := v |}).

Definition run {A} (m : M A) (st : Store) : Store := fst (m st).
Definition outcome {A} (m : M A) (st : Store) : completion A := snd (m st).

(** A handler is the closure of the render it was created in: it reads the
    state cells of that render and writes through the setters. *)
Definition invoke (handler : AppState -> M unit) : M unit :=
  fun st => handler (ui st) st.

(** A template literal hole holding a string or [undefined]. *)
Definition shown_text (v : option jsstring) : jsstring :=
  match v with
  | Some s => s
  | None => lit "undefined"
  end.

Section Program.

Variable env : Env.

Definition engine_error (f : Fault) : Thrown := ErrorObject (fault_message env f).

(** The value of [o], or the engine's error [f] when it is [undefined]. *)
Definition defined {A} (o : option A) (f : Fault) : M A :=
  match o with
  | Some a => ret a
  | None => throw (engine_error f)
  end.

(** [await ai.models.generateContent(p)] *)
Definition ai_models_generateContent (p : Sdk.GenerateContentParameters)
  : M Sdk.GenerateContentResponse :=
  fun st =>
    let st' := {| ui := ui st;
                  events := events st ++ [Requested (Sdk.GenerateContent p) (ui st)] |} in
    match generateContent_answer env (events st) p with
    | inl e => (st', Throw e)
    | inr r => (st', Normal r)
    end.

(** [await ai.models.generateImages(p)] *)
Definition ai_models_generateImages (p : Sdk.GenerateImagesParameters)
  : M Sdk.GenerateImagesResponse :=
  fun st =>
    let st' := {| ui := ui st;
                  events := events st ++ [Requested (Sdk.GenerateImages p) (ui st)] |} in
    match generateImages_answer env (events st) p with
    | inl e => (st', Throw e)
    | inr r => (st', Normal r)
    end.

(* ------------------------------------------------------------------ *)
(** *** services/geminiService.ts *)

Definition text_request (title : jsstring) : Sdk.GenerateContentParameters := {|
  Sdk.model := lit "gemini-2.5-flash";
  Sdk.contents := Sdk.Prompt
    (lit "You are an expert YouTube content strategist. A creator has a video idea with the working title: "
     ++ [dq] ++ title ++ [dq]
     ++ lit ". Your task is to generate the following assets in JSON format: 1. seoTitle: A highly engaging and SEO-optimized title that will attract clicks. 2. description: A detailed and compelling YouTube video description. It should include a hook at the beginning, a summary of the video, relevant keywords, and placeholder calls-to-action (e.g., for subscribing or following on social media). Format it with paragraphs for readability.");
  Sdk.config := {|
    Sdk.responseMimeType := Some (lit "application/json");
    Sdk.responseSchema := Some
      (Sdk.OBJECT [(lit "seoTitle", Sdk.STRING); (lit "description", Sdk.STRING)]
                  [lit "seoTitle"; lit "description"]);
    Sdk.responseModalities := None
  |}
|}.

Definition text_failure : jsstring := lit "Failed to generate video details from AI.".

Definition generateTextContent (title : jsstring) : M json :=
  try_catch
    (response <- ai_models_generateContent (text_request title) ;;
     text <- defined (Sdk.response_text response) (ReadOfUndefined (lit "trim")) ;;
     let jsonText := trim text in
     match JSON_parse jsonText with
     | Some parsedJson => ret parsedJson
     | None => throw (engine_error (BadJson jsonText))
     end)
    (fun error =>
       console_error (Some (lit "Error generating text content:")) error ;;
       throw (ErrorObject text_failure)).

Definition image_request (prompt : jsstring) : Sdk.GenerateImagesParameters := {|
  Sdk.images_model := lit "imagen-4.0-generate-001";
  Sdk.prompt := prompt;
  Sdk.numberOfImages := 1;
  Sdk.outputMimeType := lit "image/jpeg";
  Sdk.aspectRatio := lit "16:9"
|}.

Definition image_failure : jsstring := lit "Failed to generate thumbnail from AI.".

Definition generateImageFromText (prompt : jsstring) : M jsstring :=
  try_catch
    (response <- ai_models_generateImages (image_request prompt) ;;
     match Sdk.generatedImages response with
     | Some (first :: _) =>
         image <- defined (Sdk.image first) (ReadOfUndefined (lit "imageBytes")) ;;
         let base64ImageBytes := Sdk.imageBytes image in
         ret (lit "data:image/jpeg;base64," ++ shown_text base64ImageBytes)
     | Some [] | None =>
         throw (ErrorObject (lit "No thumbnail was generated."))
     end)
    (fun error =>
       console_error (Some (lit "Error generating thumbnail:")) error ;;
       throw (ErrorObject image_failure)).

Definition edit_request (base64ImageData : option jsstring) (mimeType prompt : jsstring)
  : Sdk.GenerateContentParameters := {|
  Sdk.model := lit "gemini-2.5-flash-image-preview";
  Sdk.contents := Sdk.Parts
    [ {| Sdk.inlineData := Some {| Sdk.data := base64ImageData;
                                   Sdk.mimeType := Some mimeType |};
         Sdk.text := None |};
      {| Sdk.inlineData := None; Sdk.text := Some prompt |} ];
  Sdk.config := {|
    Sdk.responseMimeType := None;
    Sdk.responseSchema := None;
    Sdk.responseModalities := Some [Sdk.IMAGE; Sdk.TEXT]
  |}
|}.

(** The data URL the loop over the response parts returns: that of the
    first part carrying [inlineData], if any. *)
Fixpoint first_inline_image (parts : list Sdk.Part) : option jsstring :=
  match parts with
  | [] => None
  | part :: rest =>
      match Sdk.inlineData part with
      | Some inlineData =>
          let base64ImageBytes := Sdk.data inlineData in
          let newMimeType := Sdk.mimeType inlineData in
          Some (lit "data:" ++ shown_text newMimeType ++ lit ";base64,"
                ++ shown_text base64ImageBytes)
      | None => first_inline_image rest
      end
  end.

Definition refusal_message : jsstring :=
  lit "The AI did not return an image. It may have refused the request.".

Definition edit_failure : jsstring := lit "Failed to edit image with AI.".

(** [base64ImageData] is [None] when the caller passes [undefined]. *)
Definition editImage (base64ImageData : option jsstring) (mimeType prompt : jsstring)
  : M jsstring :=
  try_catch
    (response <- ai_models_generateContent (edit_request base64ImageData mimeType prompt) ;;
     candidates <- defined (Sdk.candidates response) (ReadOfUndefined (lit "0")) ;;
     candidate <- defined (at_index candidates 0) (ReadOfUndefined (lit "content")) ;;
     content <- defined (Sdk.content candidate) (ReadOfUndefined (lit "parts")) ;;
     parts <- defined (Sdk.parts content) NotIterable ;;
     match first_inline_image parts with
     | Some url => ret url
     | None => throw (ErrorObject refusal_message)
     end)
    (fun error =>
       console_error (Some (lit "Error editing image:")) error ;;
       throw (ErrorObject edit_failure)).

(* ------------------------------------------------------------------ *)
(** *** App.tsx *)

Definition handleError (err : Thrown) : M unit :=
  console_error None err ;;
  setError (match err with
            | ErrorObject message => message
            | OtherValue => lit "An unknown error occurred. Please try again."
            end).

(** [textContent.seoTitle]: reading a property of [null] throws; a value
    without that own property yields [undefined]. *)
Definition seoTitle (textContent : json) : M (option json) :=
  match textContent with
  | JNull => throw (engine_error (ReadOfNull (lit "seoTitle")))
  | JObject members => ret (member (lit "seoTitle") members)
  | JBool _ | JNumber _ | JString _ | JArray _ => ret None
  end.

(** A template literal hole holding any value. *)
Definition shown_value (v : option json) : M jsstring :=
  match v with
  | Some (JString s) => ret s
  | _ => match ToString env v with
         | inl e => throw e
         | inr s => ret s
         end
  end.

Definition styleInstruction (thumbnailStyle : jsstring) : jsstring :=
  lit "Style: " ++ thumbnailStyle
  ++ lit ", ultra-realistic, professional, high-contrast, eye-catching. IMPORTANT: Do NOT include any text, logos, or watermarks.".

(** The two prompt templates of step 2, for a title already converted. *)
Definition thumbnail_prompt (withImage : bool) (title thumbnailStyle : jsstring) : jsstring :=
  if withImage
  then lit "Incorporate the subject from the provided image into a new scene for a YouTube thumbnail about "
       ++ [dq] ++ title ++ [dq] ++ lit ". " ++ styleInstruction thumbnailStyle
  else lit "Create a YouTube thumbnail for a video titled "
       ++ [dq] ++ title ++ [dq] ++ lit ". " ++ styleInstruction thumbnailStyle.

(** Lines 33-39: the transition that opens GenerateAll. *)
Definition generateAll_transition : M unit :=
  setIsLoading true ;;
  setIsTextLoading true ;;
  setIsThumbnailLoading true ;;
  setError [] ;;
  setGeneratedContent JNull ;;
  setThumbnailUrl [] ;;
  setCopiedStates [].

Definition handleGenerateAll (s : AppState) : M unit :=
  if falsy (trim (videoIdea s)) then
    setError (lit "Please enter a video idea first.")
  else
    generateAll_transition ;;
    try_finally
      (try_catch
         (textContent <- generateTextContent (videoIdea s) ;;
          setGeneratedContent textContent ;;
          setIsTextLoading false ;;
          finalThumbnailPrompt <-
            match userImage s with
            | Some _ =>
                v <- seoTitle textContent ;;
                title <- shown_value v ;;
                ret (thumbnail_prompt true title (thumbnailStyle s))
            | None =>
                v <- seoTitle textContent ;;
                title <- shown_value v ;;
                ret (thumbnail_prompt false title (thumbnailStyle s))
            end ;;
          setThumbnailPrompt finalThumbnailPrompt ;;
          imageUrl <-
            match userImage s with
            | Some img => editImage (Some (data img)) (mimeType img) finalThumbnailPrompt
            | None => generateImageFromText finalThumbnailPrompt
            end ;;
          setThumbnailUrl imageUrl)
         (fun err =>
            handleError err ;;
            setIsTextLoading false))
      (setIsThumbnailLoading false ;;
       setIsLoading false).

(** Lines 76-78. *)
Definition regenerate_transition : M unit :=
  setIsThumbnailLoading true ;;
  setError [] ;;
  setEditPrompt [].

Definition handleRegenerateThumbnail (s : AppState) : M unit :=
  if falsy (trim (thumbnailPrompt s)) then
    setError (lit "Thumbnail prompt cannot be empty.")
  else
    regenerate_transition ;;
    try_finally
      (try_catch
         (imageUrl <-
            match userImage s with
            | Some img => editImage (Some (data img)) (mimeType img) (thumbnailPrompt s)
            | None => generateImageFromText (thumbnailPrompt s)
            end ;;
          setThumbnailUrl imageUrl)
         (fun err => handleError err))
      (setIsThumbnailLoading false).

(** Lines 101-102. *)
Definition edit_transition : M unit :=
  setIsThumbnailLoading true ;;
  setError [].

Definition handleEditThumbnail (s : AppState) : M unit :=
  if falsy (trim (editPrompt s)) then
    setError (lit "Edit prompt cannot be empty.")
  else if falsy (thumbnailUrl s) then
    setError (lit "Generate a thumbnail first before editing.")
  else
    edit_transition ;;
    try_finally
      (try_catch
         (let pieces := split 44 (thumbnailUrl s) in
          let meta := hd [] pieces in
          let base64Data := at_index pieces 1 in
          afterColon <- defined (at_index (split 58 meta) 1) (ReadOfUndefined (lit "split")) ;;
          let mimeType := hd [] (split 59 afterColon) in
          imageUrl <- editImage base64Data mimeType (editPrompt s) ;;
          setThumbnailUrl imageUrl)
         (fun err => handleError err))
      (setIsThumbnailLoading false).

(** Lines 120-121: the file extension taken from the data URL. *)
Definition download_extension (thumbnailUrl : jsstring) : jsstring :=
  let mimeType :=
    match at_index (split 58 thumbnailUrl) 1 with
    | Some afterColon => Some (hd [] (split 59 afterColon))
    | None => None
    end in
  let subtype :=
    match mimeType with
    | Some m => at_index (split 47 m) 1
    | None => None
    end in
  match subtype with
  | Some e => if falsy e then lit "jpeg" else e
  | None => lit "jpeg"
  end.

Definition download_name (now : Z) (extension : jsstring) : jsstring :=
  lit "dekhao-thumbnail-" ++ decimal now ++ lit "." ++ extension.

(** Creating the link, clicking it and removing it is one [Downloaded]
    event carrying the link's [href] and [download] attributes. *)
Definition handleDownloadThumbnail (s : AppState) : M unit :=
  if falsy (thumbnailUrl s) then ret tt
  else
    fun st =>
      let extension := download_extension (thumbnailUrl s) in
      emit (Downloaded (thumbnailUrl s)
                       (download_name (Date_now env (events st)) extension)) st.

End Program.

(* ================================================================== *)
(** ** Vocabulary of the statements *)

(** The shape the text call asks the provider for: an object whose
    [seoTitle] and [description] are strings. *)
Definition has_text_shape (v : json) : bool :=
  match v with
  | JObject members =>
      match member (lit "seoTitle") members, member (lit "description") members with
      | Some (JString _), Some (JString _) => true
      | _, _ => false
      end
  | _ => false
  end.

(** [data:<mime>;base64,<bytes>] *)
Definition data_url (mime bytes : jsstring) : jsstring :=
  lit "data:" ++ mime ++ lit ";base64," ++ bytes.

(** None of the code units [seps] occurs in [s]. *)
Definition free_of (seps : list N) (s : jsstring) : bool :=
  forallb (fun c => negb (existsb (N.eqb c) seps)) s.

(** A string that [trim] empties: nothing but white space. *)
Definition blank (s : jsstring) : bool := falsy (trim s).

Section Replies.

Variable env : Env.

(** What the body of [generateTextContent] comes to when the events so
    far are [evs]: the parsed value, or the cause of the failure. *)
Definition text_reply (evs : list Event) (title : jsstring) : Thrown + json :=
  match generateContent_answer env evs (text_request title) with
  | inl e => inl e
  | inr response =>
      match Sdk.response_text response with
      | None => inl (engine_error env (ReadOfUndefined (lit "trim")))
      | Some text =>
          match JSON_parse (trim text) with
          | Some v => inr v
          | None => inl (engine_error env (BadJson (trim text)))
          end
      end
  end.

(** Likewise for the body of [editImage]. *)
Definition edit_reply (evs : list Event) (base64ImageData : option jsstring)
  (mimeType prompt : jsstring) : Thrown + jsstring :=
  match generateContent_answer env evs (edit_request base64ImageData mimeType prompt) with
  | inl e => inl e
  | inr response =>
      match Sdk.candidates response with
      | None => inl (engine_error env (ReadOfUndefined (lit "0")))
      | Some [] => inl (engine_error env (ReadOfUndefined (lit "content")))
      | Some (candidate :: _) =>
          match Sdk.content candidate with
          | None => inl (engine_error env (ReadOfUndefined (lit "parts")))
          | Some content =>
              match Sdk.parts content with
              | None => inl (engine_error env NotIterable)
              | Some parts =>
                  match first_inline_image parts with
                  | Some url => inr url
                  | None => inl (ErrorObject refusal_message)
                  end
              end
          end
      end
  end.

(** Likewise for the body of [generateImageFromText]. *)
Definition image_reply (evs : list Event) (prompt : jsstring) : Thrown + jsstring :=
  match generateImages_answer env evs (image_request prompt) with
  | inl e => inl e
  | inr response =>
      match Sdk.generatedImages response with
      | Some (first :: _) =>
          match Sdk.image first with
          | None => inl (engine_error env (ReadOfUndefined (lit "imageBytes")))
          | Some image =>
              inr (lit "data:image/jpeg;base64," ++ shown_text (Sdk.imageBytes image))
          end
      | Some [] | None => inl (ErrorObject (lit "No thumbnail was generated."))
      end
  end.

End Replies.

Definition has_image (s : AppState) : bool :=
  match userImage s with
  | Some _ => true
  | None => false
  end.

(* ================================================================== *)
(** ** Scripted environments and sample states *)

Module Scenario.

(** The texts V8 gives the engine-raised errors. *)
Definition v8_message (f : Fault) : jsstring :=
  match f with
  | ReadOfUndefined p =>
      lit "Cannot read properties of undefined (reading '" ++ p ++ lit "')"
  | ReadOfNull p =>
      lit "Cannot read properties of null (reading '" ++ p ++ lit "')"
  | NotIterable => lit "undefined is not iterable"
  | BadJson _ => lit "Unexpected token in JSON"
  end.

(** String conversion of [undefined], [null] and the booleans; the sample
    runs convert nothing else, and any other request is answered by an
    error that says so. *)
Definition primitive_ToString (v : option json) : Thrown + jsstring :=
  match v with
  | None => inr (lit "undefined")
  | Some JNull => inr (lit "null")
  | Some (JBool true) => inr (lit "true")
  | Some (JBool false) => inr (lit "false")
  | Some (JString s) => inr s
  | Some (JNumber _) | Some (JArray _) | Some (JObject _) =>
      inl (ErrorObject (lit "conversion not scripted"))
  end.

(** An environment whose provider answers by the kind of call and by the
    number of provider calls made before. *)
Definition scripted
  (text_answer : Thrown + Sdk.GenerateContentResponse)
  (edit_answer : nat -> Thrown + Sdk.GenerateContentResponse)
  (image_answer : Thrown + Sdk.GenerateImagesResponse)
  (now : Z) : Env := {|
  generateContent_answer := fun evs p =>
    if Js.eqb (Sdk.model p) (lit "gemini-2.5-flash") then text_answer
    else edit_answer (List.length (requests evs));
  generateImages_answer := fun _ _ => image_answer;
  Date_now := fun _ => now;
  fault_message := v8_message;
  ToString := primitive_ToString
|}.

Definition text_part (t : jsstring) : Sdk.Part :=
  {| Sdk.inlineData := None; Sdk.text := Some t |}.

Definition image_part (mime bytes : jsstring) : Sdk.Part :=
  {| Sdk.inlineData := Some {| Sdk.data := Some bytes; Sdk.mimeType := Some mime |};
     Sdk.text := None |}.

(** What [response.text] is for a list of parts: the texts joined, or
    [undefined] when no part has text. *)
Fixpoint joined_text (ps : list Sdk.Part) : option jsstring :=
  match ps with
  | [] => None
  | p :: ps' =>
      match Sdk.text p, joined_text ps' with
      | Some t, Some t' => Some (t ++ t')
      | Some t, None => Some t
      | None, r => r
      end
  end.

Definition response_of (ps : list Sdk.Part) : Sdk.GenerateContentResponse := {|
  Sdk.response_text := joined_text ps;
  Sdk.candidates := Some [ {| Sdk.content := Some {| Sdk.parts := Some ps |} |} ]
|}.

Definition images_of (bytes : jsstring) : Sdk.GenerateImagesResponse :=
  {| Sdk.generatedImages :=
       Some [ {| Sdk.image := Some {| Sdk.imageBytes := Some bytes |} |} ] |}.

Definition unavailable {A : Type} : Thrown + A :=
  inl (ErrorObject (lit "503 Service Unavailable")).

Definition start (s : AppState) : Store := {| ui := s; events := [] |}.

(** The provider honours the schema, then draws the image. *)
Definition camera_env : Env :=
  scripted
    (inr (response_of [text_part
       (quoted "{'seoTitle': 'I Unboxed the Smartest Camera of 2024', 'description': 'Hook. Summary.'}")]))
    (fun _ => inr (response_of [text_part (lit "Here you go."); image_part (lit "image/png") (lit "UE5H")]))
    (inr (images_of (lit "SlBFRw==")))
    1700000000000%Z.

Definition camera_idea : AppState := {|
  videoIdea := lit "Unboxing a new camera";
  generatedContent := JNull;
  thumbnailUrl := [];
  userImage := None;
  thumbnailStyle := lit "Cinematic";
  thumbnailPrompt := [];
  editPrompt := [];
  isLoading := false;
  isTextLoading := false;
  isThumbnailLoading := false;
  error := [];
  copiedStates := []
|}.

(** The provider answers the text call with an empty JSON object. *)
Definition empty_object_env : Env :=
  scripted (inr (response_of [text_part (lit "{}")])) (fun _ => unavailable)
           unavailable 0%Z.

(** The provider refuses to edit and answers with text only. *)
Definition refusing_env : Env :=
  scripted unavailable
           (fun _ => inr (response_of [text_part (lit "I cannot edit this image.")]))
           unavailable 0%Z.

(** The provider is down. *)
Definition down_env : Env :=
  scripted unavailable (fun _ => unavailable) unavailable 0%Z.

(** The first edit returns a WebP image, the second a PNG. *)
Definition editing_env : Env :=
  scripted unavailable
    (fun n => match n with
              | O => inr (response_of [image_part (lit "image/webp") (lit "V0VCUA==")])
              | _ => inr (response_of [image_part (lit "image/png") (lit "UE5HMg==")])
              end)
    unavailable 1700000000000%Z.

(** Only white space in the idea field. *)
Definition blank_idea : AppState := {|
  videoIdea := [32; 9; 10; 160];
  generatedContent := JObject [(lit "seoTitle", JString (lit "Old title"));
                               (lit "description", JString (lit "Old text"))];
  thumbnailUrl := lit "data:image/jpeg;base64,T0xE";
  userImage := None;
  thumbnailStyle := lit "Retro";
  thumbnailPrompt := lit "An older prompt";
  editPrompt := lit "make it blue";
  isLoading := false;
  isTextLoading := false;
  isThumbnailLoading := false;
  error := [];
  copiedStates := [(lit "title", true)]
|}.

(** The idea field was emptied while an edit of the thumbnail is still in
    flight: the thumbnail spinner is on. *)
Definition emptied_during_edit : AppState := {|
  videoIdea := [];
  generatedContent := JObject [(lit "seoTitle", JString (lit "Old title"));
                               (lit "description", JString (lit "Old text"))];
  thumbnailUrl := lit "data:image/jpeg;base64,T0xE";
  userImage := None;
  thumbnailStyle := lit "Cinematic";
  thumbnailPrompt := lit "An older prompt";
  editPrompt := lit "add a lightning bolt";
  isLoading := false;
  isTextLoading := false;
  isThumbnailLoading := true;
  error := [];
  copiedStates := []
|}.

(** A thumbnail is on screen, an upload is still selected, the user has
    rewritten the prompt and typed a quick edit, and the last edit failed. *)
Definition refining : AppState := {|
  videoIdea := lit "Unboxing a new camera";
  generatedContent := JObject [(lit "seoTitle", JString (lit "Old title"));
                               (lit "description", JString (lit "Old text"))];
  thumbnailUrl := lit "data:image/jpeg;base64,T0xE";
  userImage := Some {| data := lit "VVBMT0FE"; mimeType := lit "image/png";
                       name := lit "me.png" |};
  thumbnailStyle := lit "Cinematic";
  thumbnailPrompt := lit "A camera on a glacier at dawn";
  editPrompt := lit "add a lightning bolt";
  isLoading := false;
  isTextLoading := false;
  isThumbnailLoading := false;
  error := lit "Failed to edit image with AI.";
  copiedStates := []
|}.

(** A PNG thumbnail on screen after an edit. *)
Definition png_on_screen : AppState := {|
  videoIdea := lit "Unboxing a new camera";
  generatedContent := JObject [(lit "seoTitle", JString (lit "Old title"));
                               (lit "description", JString (lit "Old text"))];
  thumbnailUrl := lit "data:image/png;base64,UE5H";
  userImage := None;
  thumbnailStyle := lit "Cinematic";
  thumbnailPrompt := lit "An older prompt";
  editPrompt := lit "add a lightning bolt";
  isLoading := false;
  isTextLoading := false;
  isThumbnailLoading := false;
  error := [];
  copiedStates := []
|}.

End Scenario.

(* ================================================================== *)
(** ** The rest of App.tsx: input controls, copy, upload, rendering *)

Module Controls.

Local Open Scope js_scope.

Definition setVideoIdea (v : jsstring) : M unit :=
  update (fun s =>
    {| videoIdea := v; generatedContent := generatedContent s;
       thumbnailUrl := thumbnailUrl s; userImage := userImage s;
       thumbnailStyle := thumbnailStyle s; thumbnailPrompt := thumbnailPrompt s;
       editPrompt := editPrompt s; isLoading := isLoading s;
       isTextLoading := isTextLoading s;
       isThumbnailLoading := isThumbnailLoading s; error := error s;
       copiedStates := copiedStates s |}).

Definition setUserImage (v : option UserImage) : M unit :=
  update (fun s =>
    {| videoIdea := videoIdea s; generatedContent := generatedContent s;
       thumbnailUrl := thumbnailUrl s; userImage := v;
       thumbnailStyle := thumbnailStyle s; thumbnailPrompt := thumbnailPrompt s;
       editPrompt := editPrompt s; isLoading := isLoading s;
       isTextLoading := isTextLoading s;
       isThumbnailLoading := isThumbnailLoading s; error := error s;
       copiedStates := copiedStates s |}).

Definition setThumbnailStyle (v : jsstring) : M unit :=
  update (fun s =>
    {| videoIdea := videoIdea s; generatedContent := generatedContent s;
       thumbnailUrl := thumbnailUrl s; userImage := userImage s;
       thumbnailStyle := v; thumbnailPrompt := thumbnailPrompt s;
       editPrompt := editPrompt s; isLoading := isLoading s;
       isTextLoading := isTextLoading s;
       isThumbnailLoading := isThumbnailLoading s; error := error s;
       copiedStates := copiedStates s |}).

Definition THUMBNAIL_STYLES : list jsstring :=
  [lit "Cinematic"; lit "Vibrant"; lit "Minimalist"; lit "Futuristic"; lit "Retro";
   lit "Bold & Graphic"].

(* ------------------------------------------------------------------ *)
(** *** handleCopyToClipboard *)

(** [copiedStates[key]]: [None] is [undefined]. *)
Fixpoint lookup (key : jsstring) (m : list (jsstring * bool)) : option bool :=
  match m with
  | [] => None
  | (k, b) :: m' => if Js.eqb key k then Some b else lookup key m'
  end.

(** The object [{ ...prev, [key]: flag }]. *)
Fixpoint assign (key : jsstring) (flag : bool) (prev : list (jsstring * bool))
  : list (jsstring * bool) :=
  match prev with
  | [] => [(key, flag)]
  | (k, b) :: prev' =>
      if Js.eqb key k then (key, flag) :: prev' else (k, b) :: assign key flag prev'
  end.

(** [setCopiedStates(prev => ({ ...prev, [key]: flag }))]: the updater is
    applied to the state current when React runs it. *)
Definition mark_copied (key : jsstring) (flag : bool) (s : AppState) : AppState :=
  {| videoIdea := videoIdea s; generatedContent := generatedContent s;
     thumbnailUrl := thumbnailUrl s; userImage := userImage s;
     thumbnailStyle := thumbnailStyle s; thumbnailPrompt := thumbnailPrompt s;
     editPrompt := editPrompt s; isLoading := isLoading s;
     isTextLoading := isTextLoading s;
     isThumbnailLoading := isThumbnailLoading s; error := error s;
     copiedStates := assign key flag (copiedStates s) |}.

(** What a call of the handler does: the text handed to the clipboard, the
    state after its first updater, and the timer it sets, with the delay in
    milliseconds and the state change the timer makes when it fires. *)
Record Copy := {
  clipboard_text : jsstring;
  marked : AppState;
  timer_delay : N;
  timer_fires : AppState -> AppState
}.

Definition handleCopyToClipboard (text key : jsstring) (s : AppState) : Copy := {|
  clipboard_text := text;
  marked := mark_copied key true s;
  timer_delay := 2000;
  timer_fires := mark_copied key false
|}.

(** The icon of a card: the check mark when [copiedStates[contentKey]] is
    truthy, the copy icon otherwise. *)
Definition shows_check (s : AppState) (contentKey : jsstring) : bool :=
  match lookup contentKey (copiedStates s) with
  | Some true => true
  | Some false | None => false
  end.

(* ------------------------------------------------------------------ *)
(** *** handleFileChange *)

(** The selected file as the handler uses it. *)
Record File := { file_type : jsstring; file_name : jsstring }.

(** The handler with its reader callback: [file] is [e.target.files?.[0]],
    [result] the data URL the reader hands to [onload]. With no file nothing
    happens. The result is [None] when [result] has no comma: the cell would
    then hold an object whose [data] is [undefined], which [UserImage]
    cannot express; [readAsDataURL] never produces such a result. *)
Definition handleFileChange (file : option File) (result : jsstring)
  : option (M unit) :=
  match file with
  | None => Some (ret tt)
  | Some f =>
      match at_index (split 44 result) 1 with
      | Some base64Data =>
          Some (setUserImage (Some {| data := base64Data; mimeType := file_type f;
                                      name := file_name f |}))
      | None => None
      end
  end.

(* ------------------------------------------------------------------ *)
(** *** What the component renders *)

(** [disabled={isLoading}] of the Generate All button. *)
Definition generate_disabled (s : AppState) : bool := isLoading s.

(** [{thumbnailUrl && !isThumbnailLoading && ( ... )}]: the panel with the
    prompt editor, Go, the quick edit field, Edit and Download. *)
Definition refine_panel (s : AppState) : bool :=
  negb (falsy (thumbnailUrl s)) && negb (isThumbnailLoading s).

(** [{error && <p>...}] *)
Definition error_shown (s : AppState) : bool := negb (falsy (error s)).

(** The remove link of the upload box: [{userImage ? ... : ...}]. *)
Definition remove_offered (s : AppState) : bool :=
  match userImage s with
  | Some _ => true
  | None => false
  end.

(* ------------------------------------------------------------------ *)
(** *** The component driven through its controls *)

(** What a user can do to the mounted component. Provider calls are awaited
    to completion within the action that starts them. *)
Inductive Action :=
| TypeIdea (v : jsstring)
| ChooseFile (file : option File) (result : jsstring)
| RemoveImage
| SelectStyle (v : jsstring)
| ClickGenerateAll
| TypePrompt (v : jsstring)
| ClickGo
| TypeEdit (v : jsstring)
| ClickEdit
| ClickDownload
| ClickCopy (text key : jsstring)
| CopyTimerFires (key : jsstring).

(** Whether the rendered page offers the action. A style comes from the
    options of the select. The copy buttons and their timers are offered in
    every state, which the page does not always do. *)
Definition offered (s : AppState) (a : Action) : bool :=
  match a with
  | TypeIdea _ => true
  | ChooseFile file result =>
      match handleFileChange file result with
      | Some _ => true
      | None => false
      end
  | RemoveImage => remove_offered s
  | SelectStyle v => existsb (Js.eqb v) THUMBNAIL_STYLES
  | ClickGenerateAll => negb (generate_disabled s)
  | TypePrompt _ | ClickGo | TypeEdit _ | ClickEdit | ClickDownload => refine_panel s
  | ClickCopy _ _ | CopyTimerFires _ => true
  end.

Definition perform (env : Env) (a : Action) (st : Store) : Store :=
  match a with
  | TypeIdea v => run (setVideoIdea v) st
  | ChooseFile file result =>
      match handleFileChange file result with
      | Some m => run m st
      | None => st
      end
  | RemoveImage => run (setUserImage None) st
  | SelectStyle v => run (setThumbnailStyle v) st
  | ClickGenerateAll => run (invoke (handleGenerateAll env)) st
  | TypePrompt v => run (setThumbnailPrompt v) st
  | ClickGo => run (invoke (handleRegenerateThumbnail env)) st
  | TypeEdit v => run (setEditPrompt v) st
  | ClickEdit => run (invoke (handleEditThumbnail env)) st
  | ClickDownload => run (invoke (handleDownloadThumbnail env)) st
  | ClickCopy text key =>
      {| ui := marked (handleCopyToClipboard text key (ui st)); events := events st |}
  | CopyTimerFires key =>
      {| ui := mark_copied key false (ui st); events := events st |}
  end.

Definition mounted : Store := {| ui := initialState; events := [] |}.

(** The store after a session, when the page offers each action at its
    turn. *)
Fixpoint play (env : Env) (session : list Action) (st : Store) : option Store :=
  match session with
  | [] => Some st
  | a :: rest =>
      if offered (ui st) a then play env rest (perform env a st) else None
  end.

Definition reachable (env : Env) (st : Store) : Prop :=
  exists session, play env session mounted = Some st.

(** The component between two actions: no busy flag is up, the style is
    one of the options, the thumbnail is absent or a data URL, and a
    thumbnail comes with text assets. *)
Definition at_rest (s : AppState) : Prop :=
  isLoading s = false
  /\ isTextLoading s = false
  /\ isThumbnailLoading s = false
  /\ In (thumbnailStyle s) THUMBNAIL_STYLES
  /\ (thumbnailUrl s = [] \/ exists mime bytes, thumbnailUrl s = data_url mime bytes)
  /\ (thumbnailUrl s <> [] -> generatedContent s <> JNull).

(** The console never received a thrown value that is not an [Error] from
    [handleError]. *)
Definition only_errors_handled (evs : list Event) : Prop :=
  ~ In (ConsoleError None OtherValue) evs.

End Controls.

(* ================================================================== *)
(** ** More sample environments *)

Module Samples.

(** A payload with a byte order mark and a line feed before it and a
    no-break space and a line break after it. *)
Definition padded_payload : jsstring :=
  [65279; 10] ++ quoted "{'seoTitle': 'T', 'description': 'D'}" ++ [160; 13; 10].

Definition padded_env : Env :=
  Scenario.scripted
    (inr (Scenario.response_of [Scenario.text_part padded_payload]))
    (fun _ => Scenario.unavailable) Scenario.unavailable 0%Z.

(** The image model answers without any image. *)
Definition no_image_env : Env :=
  Scenario.scripted Scenario.unavailable (fun _ => Scenario.unavailable)
    (inr {| Sdk.generatedImages := Some [] |}) 0%Z.

End Samples.

Module MoreSamples.

(** An upload and a typed instruction, but no thumbnail yet. *)
Definition no_thumbnail_yet : AppState := {|
  videoIdea := lit "Unboxing a new camera";
  generatedContent := JNull;
  thumbnailUrl := [];
  userImage := Some {| data := lit "VVBMT0FE"; mimeType := lit "image/png";
                       name := lit "me.png" |};
  thumbnailStyle := lit "Cinematic";
  thumbnailPrompt := [];
  editPrompt := lit "add a lightning bolt";
  isLoading := false;
  isTextLoading := false;
  isThumbnailLoading := false;
  error := [];
  copiedStates := []
|}.

(** The text model honours the schema, the image models are down. *)
Definition text_only_env : Env :=
  Scenario.scripted
    (inr (Scenario.response_of
            [Scenario.text_part (quoted "{'seoTitle': 'T', 'description': 'D'}")]))
    (fun _ => Scenario.unavailable) Scenario.unavailable 0%Z.

(** The text model answers [null]. *)
Definition null_env : Env :=
  Scenario.scripted (inr (Scenario.response_of [Scenario.text_part (lit "null")]))
    (fun _ => Scenario.unavailable) Scenario.unavailable 0%Z.

(** A session: an idea is typed, everything is generated, a quick edit is
    typed and applied, another style is picked and the result downloaded. *)
Definition editing_session : list Controls.Action :=
  [Controls.TypeIdea (lit "Unboxing a new camera");
   Controls.ClickGenerateAll;
   Controls.TypeEdit (lit "add a lightning bolt");
   Controls.ClickEdit;
   Controls.SelectStyle (lit "Retro");
   Controls.ClickDownload].

(** The store a session ends in, the mounted one when the page refuses an
    action of the session. *)
Definition outcome_of (env : Env) (session : list Controls.Action) : Store :=
  match Controls.play env session Controls.mounted with
  | Some st => st
  | None => Controls.mounted
  end.

End MoreSamples.

(* ================================================================== *)
(** ** The parser never runs out of budget *)

Module JsonFacts.

Lemma skip_ws_length s : (List.length (skip_ws s) <= List.length s)%nat.
Proof.
  induction s as [|c s IH]; simpl; [lia|].
  destruct (is_json_space c); simpl; lia.
Qed.

Lemma digits_length s ds r :
  digits s = (ds, r) -> (List.length r <= List.length s)%nat.
Proof.
  revert ds r. induction s as [|c s IH]; simpl; intros ds r H.
  - inversion H; simpl; lia.
  - destruct (is_digit c).
    + destruct (digits s) as [ds' r'] eqn:E. inversion H; subst.
      specialize (IH _ _ eq_refl). lia.
    + inversion H; subst; simpl; lia.
Qed.

Lemma push_some c o str r :
  push c o = Some (str, r) -> exists str', o = Some (str', r).
Proof.
  destruct o as [[str' r']|]; simpl; intros H; inversion H; subst; eauto.
Qed.

Lemma parse_chars_bounded n : forall s str r,
  (List.length s <= n)%nat ->
  parse_chars s = Some (str, r) -> (List.length r < List.length s)%nat.
Proof.
  induction n as [|n IH]; intros s str r Hn H.
  { destruct s; [discriminate | simpl in Hn; lia]. }
  destruct s as [|c s1]; simpl in H; [discriminate|]. simpl in Hn.
  destruct (c =? 34).
  { inversion H; subst; simpl; lia. }
  destruct (c =? 92).
  - destruct s1 as [|e s2]; [discriminate|].
    destruct (e =? 117).
    + destruct s2 as [|h1 [|h2 [|h3 [|h4 s3]]]]; try discriminate.
      destruct (hexval h1), (hexval h2), (hexval h3), (hexval h4); try discriminate.
      apply push_some in H. destruct H as [str' H].
      apply IH in H; simpl in *; lia.
    + destruct (escape e); [|discriminate].
      apply push_some in H. destruct H as [str' H].
      apply IH in H; simpl in *; lia.
  - destruct (c <? 32); [discriminate|].
    apply push_some in H. destruct H as [str' H].
    apply IH in H; simpl in *; lia.
Qed.

Lemma parse_chars_length s str r :
  parse_chars s = Some (str, r) -> (List.length r < List.length s)%nat.
Proof. apply (parse_chars_bounded (List.length s)). lia. Qed.

Lemma parse_int_length s i r :
  parse_int s = Some (i, r) -> (List.length r < List.length s)%nat.
Proof.
  destruct s as [|c s]; simpl; [discriminate|].
  destruct (c =? 48).
  - intros H; inversion H; subst; simpl; lia.
  - destruct (is_digit c); [|discriminate].
    destruct (digits s) as [ds r'] eqn:E. intros H; inversion H; subst.
    apply digits_length in E. simpl; lia.
Qed.

Lemma parse_frac_length s f r :
  parse_frac s = Some (f, r) -> (List.length r <= List.length s)%nat.
Proof.
  destruct s as [|c s]; simpl.
  - intros H; inversion H; subst; simpl; lia.
  - destruct (c =? 46).
    + destruct (digits s) as [ds r'] eqn:E. apply digits_length in E.
      destruct ds; [discriminate|]. intros H; inversion H; subst. simpl; lia.
    + intros H; inversion H; subst; simpl; lia.
Qed.

Lemma parse_exp_length s e r :
  parse_exp s = Some (e, r) -> (List.length r <= List.length s)%nat.
Proof.
  destruct s as [|c s]; simpl.
  - intros H; inversion H; subst; simpl; lia.
  - destruct ((c =? 101) || (c =? 69)).
    + destruct s as [|g s0].
      * simpl. discriminate.
      * destruct ((g =? 43) || (g =? 45)).
        -- destruct (digits s0) as [ds r'] eqn:E. apply digits_length in E.
           destruct ds; [discriminate|]. intros H; inversion H; subst. simpl; lia.
        -- destruct (digits (g :: s0)) as [ds r'] eqn:E. apply digits_length in E.
           destruct ds; [discriminate|]. intros H; inversion H; subst. simpl in *; lia.
    + intros H; inversion H; subst; simpl; lia.
Qed.

Lemma parse_number_length s lexeme r :
  parse_number s = Some (lexeme, r) -> (List.length r < List.length s)%nat.
Proof.
  unfold parse_number.
  assert (Hs : forall sign s0,
    (List.length s0 <= List.length s)%nat ->
    match parse_int s0 with
    | None => None
    | Some (i, s1) =>
        match parse_frac s1 with
        | None => None
        | Some (f, s2) =>
            match parse_exp s2 with
            | None => None
            | Some (e, s3) => Some (sign ++ i ++ f ++ e, s3)
            end
        end
    end = Some (lexeme, r) -> (List.length r < List.length s)%nat).
  { intros sign s0 Hle.
    destruct (parse_int s0) as [[i s1]|] eqn:Ei; [|discriminate].
    destruct (parse_frac s1) as [[f s2]|] eqn:Ef; [|discriminate].
    destruct (parse_exp s2) as [[e s3]|] eqn:Ee; [|discriminate].
    intros H; inversion H; subst.
    apply parse_int_length in Ei. apply parse_frac_length in Ef.
    apply parse_exp_length in Ee. lia. }
  destruct s as [|c s'].
  - apply Hs; simpl; lia.
  - destruct (c =? 45); apply Hs; simpl; lia.
Qed.

Lemma after_length kw : forall s r,
  after kw s = Some r -> (List.length r <= List.length s)%nat.
Proof.
  induction kw as [|k kw IH]; simpl; intros s r H.
  - inversion H; subst; lia.
  - destruct s as [|c s]; [discriminate|].
    destruct (c =? k); [|discriminate]. apply IH in H. simpl; lia.
Qed.

Lemma keyword_length kw v s w r :
  keyword kw v s = Done w r -> (List.length r <= List.length s)%nat.
Proof.
  unfold keyword. destruct (after kw s) eqn:E; [|discriminate].
  intros H; inversion H; subst. eapply after_length; eauto.
Qed.

Lemma keyword_fed kw v s : keyword kw v s <> Starved.
Proof. unfold keyword. destruct (after kw s); discriminate. Qed.

(** A result of [f] on [s] is well fed: not [Starved], and what is left
    unread is shorter than [s]. *)
Definition fed (res : parsed json) (s : jsstring) : Prop :=
  res <> Starved /\
  forall v r, res = Done v r -> (List.length r < List.length s)%nat.

Lemma fed_Malformed s : fed Malformed s.
Proof. split; [discriminate | intros v r H; discriminate]. Qed.

Lemma fed_Done v r s :
  (List.length r < List.length s)%nat -> fed (Done v r) s.
Proof.
  intros H. split; [discriminate|]. intros v' r' E. inversion E; subst; exact H.
Qed.

Lemma fed_shorter res s s' :
  fed res s' -> (List.length s' <= List.length s)%nat -> fed res s.
Proof.
  intros [H1 H2] Hle. split; [exact H1|]. intros v r E.
  specialize (H2 v r E). lia.
Qed.

Local Hint Resolve fed_Malformed : core.

Lemma parse_fed : forall fuel,
  (forall s, (2 * List.length s < fuel)%nat -> fed (parse_value fuel s) s) /\
  (forall s acc, (2 * List.length s + 1 < fuel)%nat ->
     fed (parse_elements fuel s acc) s) /\
  (forall s acc, (2 * List.length s + 1 < fuel)%nat ->
     fed (parse_members fuel s acc) s).
Proof.
  induction fuel as [|fuel (IHv & IHe & IHm)].
  { repeat split; intros; lia. }
  split; [|split].
  - (* a value *)
    intros s Hf. destruct s as [|c s1]; simpl; [auto|].
    simpl in Hf.
    destruct (c =? 123).
    { destruct (skip_ws s1) as [|c2 r] eqn:E; [auto|].
      pose proof (skip_ws_length s1) as L. rewrite E in L. simpl in L.
      destruct (c2 =? 125).
      - apply fed_Done. simpl; lia.
      - eapply fed_shorter; [apply IHm|]; simpl; lia. }
    destruct (c =? 91).
    { destruct (skip_ws s1) as [|c2 r] eqn:E; [auto|].
      pose proof (skip_ws_length s1) as L. rewrite E in L. simpl in L.
      destruct (c2 =? 93).
      - apply fed_Done. simpl; lia.
      - eapply fed_shorter; [apply IHe|]; simpl; lia. }
    destruct (c =? 34).
    { destruct (parse_chars s1) as [[str r]|] eqn:E; [|auto].
      apply parse_chars_length in E. apply fed_Done. simpl; lia. }
    assert (K : forall kw v, fed (keyword kw v s1) (c :: s1)).
    { intros kw v. split; [apply keyword_fed|].
      intros w r E. apply keyword_length in E. simpl; lia. }
    destruct (c =? 110); [apply K|].
    destruct (c =? 116); [apply K|].
    destruct (c =? 102); [apply K|].
    destruct (parse_number (c :: s1)) as [[lexeme r]|] eqn:E; [|auto].
    apply parse_number_length in E. apply fed_Done. exact E.
  - (* the elements of an array *)
    intros s acc Hf. simpl.
    destruct (IHv s ltac:(lia)) as [Hv Hr].
    destruct (parse_value fuel s) as [v r| |] eqn:E; [|auto|congruence].
    specialize (Hr v r eq_refl).
    destruct (skip_ws r) as [|c r1] eqn:Er; [auto|].
    pose proof (skip_ws_length r) as L. rewrite Er in L. simpl in L.
    destruct (c =? 44).
    + pose proof (skip_ws_length r1) as L1.
      eapply fed_shorter; [apply IHe|]; lia.
    + destruct (c =? 93); [|auto]. apply fed_Done. lia.
  - (* the members of an object *)
    intros s acc Hf. simpl.
    destruct s as [|c s1]; [auto|]. simpl in Hf.
    destruct (c =? 34); [|auto].
    destruct (parse_chars s1) as [[key r]|] eqn:Ek; [|auto].
    apply parse_chars_length in Ek.
    destruct (skip_ws r) as [|c2 r1] eqn:Er; [auto|].
    pose proof (skip_ws_length r) as L. rewrite Er in L. simpl in L.
    destruct (c2 =? 58); [|auto].
    pose proof (skip_ws_length r1) as L1.
    destruct (IHv (skip_ws r1) ltac:(lia)) as [Hv Hr].
    destruct (parse_value fuel (skip_ws r1)) as [v r2| |] eqn:E; [|auto|congruence].
    specialize (Hr v r2 eq_refl).
    destruct (skip_ws r2) as [|c3 r3] eqn:Er2; [auto|].
    pose proof (skip_ws_length r2) as L2. rewrite Er2 in L2. simpl in L2.
    destruct (c3 =? 44).
    + pose proof (skip_ws_length r3) as L3.
      eapply fed_shorter; [apply IHm|]; simpl; lia.
    + destruct (c3 =? 125); [|auto]. apply fed_Done. simpl; lia.
Qed.

(** The budget [JSON_parse] hands to [parse_value] is never exhausted:
    [None] always stands for a syntax error. *)
Theorem JSON_parse_budget text :
  parse_value (S (2 * List.length (skip_ws text))) (skip_ws text) <> Starved.
Proof.
  destruct (parse_fed (S (2 * List.length (skip_ws text)))) as (Hv & _).
  apply Hv. lia.
Qed.

(** The parser on a few texts. *)
Example parse_object :
  JSON_parse (quoted " {'seoTitle': 'AB', 'n': [1, -2.5e3, true, null], 'seoTitle': 'C'} ")
  = Some (JObject [(lit "seoTitle", JString (lit "C"));
                   (lit "n", JArray [JNumber (lit "1"); JNumber (lit "-2.5e3");
                                     JBool true; JNull])]).
Proof. vm_compute. reflexivity. Qed.

Example parse_escapes :
  JSON_parse (quoted "'a\u0041\n\/'") = Some (JString [97; 65; 10; 47]).
Proof. vm_compute. reflexivity. Qed.

Example parse_nested :
  JSON_parse (quoted "[[], {}, [{'k': [false]}]]")
  = Some (JArray [JArray []; JObject [];
                  JArray [JObject [(lit "k", JArray [JBool false])]]]).
Proof. vm_compute. reflexivity. Qed.

Example parse_rejects :
  map JSON_parse
    [[]; lit "01"; lit "1."; lit ".5"; lit "+1"; lit "-"; lit "1e";
     lit "[1,]"; lit "[1 2]"; quoted "{'a':1,}"; quoted "{'a' 1}"; lit "{a:1}";
     lit "nul"; lit "True"; lit "{} x"; quoted "'open"; quoted "'\x'";
     quoted "'tab" ++ [9] ++ quoted "'"; lit "'single'"; lit "undefined"]
  = repeat None 20.
Proof. vm_compute. reflexivity. Qed.

Example parse_scalars :
  map JSON_parse [lit " null "; lit "true"; lit "-0"; lit "12.50E+3"; quoted "''"]
  = [Some JNull; Some (JBool true); Some (JNumber (lit "-0"));
     Some (JNumber (lit "12.50E+3")); Some (JString [])].
Proof. vm_compute. reflexivity. Qed.

End JsonFacts.

(* ================================================================== *)
(** ** String facts *)

Module JsFacts.

Lemma eqb_eq a b : Js.eqb a b = true <-> a = b.
Proof.
  unfold Js.eqb. destruct (list_eq_dec N.eq_dec a b); split; congruence.
Qed.

Lemma includes_app_r a needle hay : includes needle hay -> includes needle (a ++ hay).
Proof.
  intros (pre & post & ->). exists (a ++ pre), post. now rewrite app_assoc.
Qed.

Lemma includes_app_l a needle hay : includes needle hay -> includes needle (hay ++ a).
Proof.
  intros (pre & post & ->). exists pre, (post ++ a). now rewrite <- !app_assoc.
Qed.

Lemma split_without sep s : ~ In sep s -> split sep s = [s].
Proof.
  induction s as [|c s IH]; simpl; intros H; [reflexivity|].
  destruct (N.eqb_spec c sep) as [->|_]; [tauto|].
  rewrite IH by tauto. reflexivity.
Qed.

Lemma split_at_first sep a b :
  ~ In sep a -> split sep (a ++ sep :: b) = a :: split sep b.
Proof.
  induction a as [|c a IH]; simpl; intros H.
  - now rewrite N.eqb_refl.
  - destruct (N.eqb_spec c sep) as [->|_]; [tauto|].
    rewrite IH by tauto. reflexivity.
Qed.

Lemma split_nonempty sep s : split sep s <> [].
Proof.
  destruct s as [|c s]; simpl; [discriminate|].
  destruct (c =? sep); [discriminate|]. destruct (split sep s); discriminate.
Qed.

Lemma trimStart_blank s : trimStart s = [] <-> forallb is_js_space s = true.
Proof.
  induction s as [|c s IH]; simpl; [tauto|].
  destruct (is_js_space c); simpl; [exact IH|]. split; discriminate.
Qed.

Lemma trimStart_head s c r : trimStart s = c :: r -> is_js_space c = false.
Proof.
  induction s as [|d s IH]; simpl; [discriminate|].
  destruct (is_js_space d) eqn:E; [exact IH|]. intros H; inversion H; subst; exact E.
Qed.

Lemma forallb_rev {A} (f : A -> bool) l : forallb f (rev l) = forallb f l.
Proof.
  induction l as [|x l IH]; simpl; [reflexivity|].
  rewrite forallb_app, IH. simpl. rewrite andb_true_r. apply andb_comm.
Qed.

(** [trim] empties exactly the strings made of white space only. *)
Lemma trim_blank s : trim s = [] <-> forallb is_js_space s = true.
Proof.
  unfold trim, trimEnd. split.
  - intros H. apply (f_equal (@rev N)) in H. rewrite rev_involutive in H. simpl in H.
    apply trimStart_blank in H. rewrite forallb_rev in H.
    destruct (trimStart s) as [|c r] eqn:E.
    + now apply trimStart_blank.
    + apply trimStart_head in E. simpl in H. rewrite E in H. discriminate.
  - intros H. apply trimStart_blank in H. rewrite H. reflexivity.
Qed.

Lemma lit_differ a b : Js.eqb (lit a) (lit b) = false -> lit a <> lit b.
Proof. intros H E. apply eqb_eq in E. congruence. Qed.

End JsFacts.

(* ================================================================== *)
(** ** The gateway *)

Section GatewayFacts.

Variable env : Env.

Local Open Scope js_scope.

(** [generateTextContent] makes one provider call; it returns the parsed
    value, or logs the cause and throws its fixed message. *)
Lemma generateTextContent_eq title st :
  generateTextContent env title st =
  let asked := Requested (Sdk.GenerateContent (text_request title)) (ui st) in
  match text_reply env (events st) title with
  | inr v => ({| ui := ui st; events := events st ++ [asked] |}, Normal v)
  | inl cause =>
      ({| ui := ui st;
          events := (events st ++ [asked])
                    ++ [ConsoleError (Some (lit "Error generating text content:")) cause] |},
       Throw (ErrorObject text_failure))
  end.
Proof.
  unfold generateTextContent, text_reply, try_catch, bind, ai_models_generateContent,
    defined, console_error, emit, throw, ret.
  destruct (generateContent_answer env (events st) (text_request title)) as [e|response];
    simpl; [reflexivity|].
  destruct (Sdk.response_text response) as [text|]; simpl; [|reflexivity].
  destruct (JSON_parse (trim text)); reflexivity.
Qed.

Lemma editImage_eq base64ImageData mimeType prompt st :
  editImage env base64ImageData mimeType prompt st =
  let asked := Requested (Sdk.GenerateContent (edit_request base64ImageData mimeType prompt))
                         (ui st) in
  match edit_reply env (events st) base64ImageData mimeType prompt with
  | inr url => ({| ui := ui st; events := events st ++ [asked] |}, Normal url)
  | inl cause =>
      ({| ui := ui st;
          events := (events st ++ [asked])
                    ++ [ConsoleError (Some (lit "Error editing image:")) cause] |},
       Throw (ErrorObject edit_failure))
  end.
Proof.
  unfold editImage, edit_reply, try_catch, bind, ai_models_generateContent,
    defined, console_error, emit, throw, ret, at_index.
  destruct (generateContent_answer env (events st)
              (edit_request base64ImageData mimeType prompt)) as [e|response];
    simpl; [reflexivity|].
  destruct (Sdk.candidates response) as [[|candidate cs]|]; simpl; try reflexivity.
  destruct (Sdk.content candidate) as [content|]; simpl; [|reflexivity].
  destruct (Sdk.parts content) as [parts|]; simpl; [|reflexivity].
  destruct (first_inline_image parts); reflexivity.
Qed.

Lemma generateImageFromText_eq prompt st :
  generateImageFromText env prompt st =
  let asked := Requested (Sdk.GenerateImages (image_request prompt)) (ui st) in
  match image_reply env (events st) prompt with
  | inr url => ({| ui := ui st; events := events st ++ [asked] |}, Normal url)
  | inl cause =>
      ({| ui := ui st;
          events := (events st ++ [asked])
                    ++ [ConsoleError (Some (lit "Error generating thumbnail:")) cause] |},
       Throw (ErrorObject image_failure))
  end.
Proof.
  unfold generateImageFromText, image_reply, try_catch, bind, ai_models_generateImages,
    defined, console_error, emit, throw, ret.
  destruct (generateImages_answer env (events st) (image_request prompt)) as [e|response];
    simpl; [reflexivity|].
  destruct (Sdk.generatedImages response) as [[|first rest]|]; simpl; try reflexivity.
  destruct (Sdk.image first) as [image|]; reflexivity.
Qed.

(** Whatever goes wrong inside [editImage], its caller sees one message. *)
Lemma editImage_throws_one_message base64ImageData mimeType prompt st e :
  outcome (editImage env base64ImageData mimeType prompt) st = Throw e ->
  e = ErrorObject edit_failure.
Proof.
  unfold outcome. rewrite editImage_eq. cbv zeta.
  destruct (edit_reply env (events st) base64ImageData mimeType prompt); simpl;
    intros H; inversion H; reflexivity.
Qed.

End GatewayFacts.

(* ------------------------------------------------------------------ *)
(** *** editImage: the refusal message never leaves the function *)

(** C1. The specification wants a response without any image part to fail
    with the refusal message, and a transport or provider error to fail
    with the message of [edit_failure], so that the two causes can be told
    apart. In the code the refusal error is thrown inside the [try] block
    whose [catch] rethrows the fixed message: for every response whose
    parts carry no [inlineData], [editImage] throws [edit_failure] (which is
    not the refusal message), exactly as it does when the provider call
    itself fails; the refusal message only reaches the console. *)
Theorem editImage_refusal_masked :
  forall env base64ImageData mimeType prompt st response candidate rest content parts,
    generateContent_answer env (events st)
      (edit_request base64ImageData mimeType prompt) = inr response ->
    Sdk.candidates response = Some (candidate :: rest) ->
    Sdk.content candidate = Some content ->
    Sdk.parts content = Some parts ->
    Forall (fun part => Sdk.inlineData part = None) parts ->
    outcome (editImage env base64ImageData mimeType prompt) st
      = Throw (ErrorObject edit_failure)
    /\ edit_failure <> refusal_message
    /\ events (run (editImage env base64ImageData mimeType prompt) st)
       = events st
         ++ [Requested (Sdk.GenerateContent (edit_request base64ImageData mimeType prompt))
                       (ui st);
             ConsoleError (Some (lit "Error editing image:")) (ErrorObject refusal_message)]
    /\ (forall env' st' e,
          generateContent_answer env' (events st')
            (edit_request base64ImageData mimeType prompt) = inl e ->
          outcome (editImage env' base64ImageData mimeType prompt) st'
            = Throw (ErrorObject edit_failure)).
Proof.
  intros env base64ImageData mimeType prompt st response candidate rest content parts
    Hanswer Hcands Hcontent Hparts Hnone.
  assert (Hscan : first_inline_image parts = None).
  { clear Hparts. induction Hnone as [|part ps Hp _ IH]; simpl; [reflexivity|].
    rewrite Hp. exact IH. }
  assert (Hreply : edit_reply env (events st) base64ImageData mimeType prompt
                   = inl (ErrorObject refusal_message)).
  { unfold edit_reply. now rewrite Hanswer, Hcands, Hcontent, Hparts, Hscan. }
  unfold outcome, run. rewrite editImage_eq, Hreply. cbv zeta. simpl.
  repeat split.
  - apply JsFacts.lit_differ. vm_compute. reflexivity.
  - now rewrite <- app_assoc.
  - intros env' st' e He. rewrite editImage_eq. unfold edit_reply. now rewrite He.
Qed.

Lemma editImage_refusal_masked_witness :
  outcome (editImage Scenario.refusing_env (Some (lit "UE5H")) (lit "image/png")
             (lit "add a lightning bolt")) (Scenario.start Scenario.png_on_screen)
  = Throw (ErrorObject (lit "Failed to edit image with AI.")).
Proof.
  refine (proj1 (editImage_refusal_masked Scenario.refusing_env (Some (lit "UE5H"))
            (lit "image/png") (lit "add a lightning bolt")
            (Scenario.start Scenario.png_on_screen)
            (Scenario.response_of [Scenario.text_part (lit "I cannot edit this image.")])
            {| Sdk.content := Some {| Sdk.parts :=
                 Some [Scenario.text_part (lit "I cannot edit this image.")] |} |}
            [] {| Sdk.parts := Some [Scenario.text_part (lit "I cannot edit this image.")] |}
            [Scenario.text_part (lit "I cannot edit this image.")]
            _ _ _ _ _)).
  - vm_compute. reflexivity.
  - reflexivity.
  - reflexivity.
  - reflexivity.
  - repeat constructor.
Defined.

(* ------------------------------------------------------------------ *)
(** *** generateTextContent: what makes it fail *)

(** C2, as the specification states it, fails on the code: the provider
    answers the text call with the payload of an empty JSON object, which
    does not have the expected shape, and [generateTextContent] does not
    fail; it returns the empty object, in which neither field is a
    string. *)
Lemma generateTextContent_accepts_shapeless_payload :
  generateContent_answer Scenario.empty_object_env []
    (text_request (lit "Unboxing a new camera"))
  = inr (Scenario.response_of [Scenario.text_part (lit "{}")])
  /\ Sdk.response_text (Scenario.response_of [Scenario.text_part (lit "{}")])
     = Some (lit "{}")
  /\ JSON_parse (trim (lit "{}")) = Some (JObject [])
  /\ has_text_shape (JObject []) = false
  /\ outcome (generateTextContent Scenario.empty_object_env (lit "Unboxing a new camera"))
             (Scenario.start Scenario.camera_idea)
     = Normal (JObject []).
Proof. repeat split; vm_compute; reflexivity. Qed.

(** C2, amended. [generateTextContent] returns whatever [JSON.parse] makes
    of the trimmed response text, without checking its shape, and fails,
    always with the message of [text_failure], exactly when there is no
    such value: the provider call failed, the response has no text, or the
    trimmed text is not JSON. *)
Theorem generateTextContent_outcome :
  forall env title st,
    let parsed :=
      match generateContent_answer env (events st) (text_request title) with
      | inl _ => None
      | inr response =>
          match Sdk.response_text response with
          | None => None
          | Some text => JSON_parse (trim text)
          end
      end in
    outcome (generateTextContent env title) st
    = match parsed with
      | Some v => Normal v
      | None => Throw (ErrorObject text_failure)
      end
    /\ (outcome (generateTextContent env title) st = Throw (ErrorObject text_failure)
        <-> parsed = None)
    /\ text_failure = lit "Failed to generate video details from AI.".
Proof.
  intros env title st parsed.
  assert (E : outcome (generateTextContent env title) st
              = match parsed with
                | Some v => Normal v
                | None => Throw (ErrorObject text_failure)
                end).
  { unfold outcome, parsed. rewrite generateTextContent_eq. unfold text_reply. cbv zeta.
    destruct (generateContent_answer env (events st) (text_request title)) as [e|response];
      [reflexivity|].
    destruct (Sdk.response_text response) as [text|]; [|reflexivity].
    destruct (JSON_parse (trim text)); reflexivity. }
  split; [exact E|]. split; [|reflexivity].
  rewrite E. destruct parsed; split; intros H; try reflexivity; discriminate.
Qed.

Lemma generateTextContent_outcome_witness :
  outcome (generateTextContent Scenario.down_env (lit "Unboxing a new camera"))
          (Scenario.start Scenario.camera_idea)
  = Throw (ErrorObject (lit "Failed to generate video details from AI.")).
Proof.
  exact (proj1 (generateTextContent_outcome Scenario.down_env (lit "Unboxing a new camera")
                  (Scenario.start Scenario.camera_idea))).
Defined.

(* ================================================================== *)
(** ** The orchestrator *)

Lemma requests_app evs evs' : requests (evs ++ evs') = requests evs ++ requests evs'.
Proof.
  induction evs as [|ev evs IH]; [reflexivity|].
  destruct ev; cbn; now rewrite ?IH.
Qed.

(** Unfolds a handler down to the gateway calls, evaluating the setters on
    the way so that the store stays in normal form. *)
Ltac open_handler :=
  cbv beta iota zeta delta
    [invoke handleGenerateAll handleRegenerateThumbnail handleEditThumbnail
     handleDownloadThumbnail generateAll_transition regenerate_transition
     edit_transition handleError try_finally try_catch bind console_error emit
     setGeneratedContent setThumbnailUrl setThumbnailPrompt setEditPrompt
     setIsLoading setIsTextLoading setIsThumbnailLoading setError setCopiedStates
     update ret throw run outcome fst snd ui events
     videoIdea generatedContent thumbnailUrl userImage thumbnailStyle
     thumbnailPrompt editPrompt isLoading isTextLoading isThumbnailLoading
     error copiedStates].

(** Names the cells of a store, so that every projection computes. *)
Ltac open_store st :=
  destruct st as [[idea content url image style prompt0 edit busy textBusy thumbBusy
                   err copied] evs];
  cbn [ui events videoIdea generatedContent thumbnailUrl userImage thumbnailStyle
       thumbnailPrompt editPrompt isLoading isTextLoading isThumbnailLoading
       error copiedStates] in *.

(* ------------------------------------------------------------------ *)
(** *** GenerateAll *)

(** C3. When the idea is empty or consists of white space only, so that
    trimming leaves nothing, GenerateAll stores the validation message and
    does nothing else: no provider call is made (the event log is
    unchanged, so neither the text call nor an image call happened), and
    every other cell of the state, the busy flags, the generated content
    and the thumbnail among them, keeps its value. *)
Theorem generateAll_blank_idea_rejected :
  forall env st,
    trim (videoIdea (ui st)) = [] ->
    let fin := run (invoke (handleGenerateAll env)) st in
    error (ui fin) = lit "Please enter a video idea first."
    /\ events fin = events st
    /\ isLoading (ui fin) = isLoading (ui st)
    /\ isTextLoading (ui fin) = isTextLoading (ui st)
    /\ isThumbnailLoading (ui fin) = isThumbnailLoading (ui st)
    /\ generatedContent (ui fin) = generatedContent (ui st)
    /\ thumbnailUrl (ui fin) = thumbnailUrl (ui st)
    /\ videoIdea (ui fin) = videoIdea (ui st)
    /\ userImage (ui fin) = userImage (ui st)
    /\ thumbnailStyle (ui fin) = thumbnailStyle (ui st)
    /\ thumbnailPrompt (ui fin) = thumbnailPrompt (ui st)
    /\ editPrompt (ui fin) = editPrompt (ui st)
    /\ copiedStates (ui fin) = copiedStates (ui st).
Proof.
  intros env st Hblank fin. subst fin. open_store st.
  unfold run, invoke, handleGenerateAll. cbn [ui videoIdea].
  rewrite Hblank. cbn. repeat split.
Qed.

Lemma generateAll_blank_idea_rejected_witness :
  forallb is_js_space (videoIdea Scenario.blank_idea) = true
  /\ ui (run (invoke (handleGenerateAll Scenario.camera_env))
             (Scenario.start Scenario.blank_idea))
     = {| videoIdea := videoIdea Scenario.blank_idea;
          generatedContent := generatedContent Scenario.blank_idea;
          thumbnailUrl := lit "data:image/jpeg;base64,T0xE";
          userImage := None;
          thumbnailStyle := lit "Retro";
          thumbnailPrompt := lit "An older prompt";
          editPrompt := lit "make it blue";
          isLoading := false;
          isTextLoading := false;
          isThumbnailLoading := false;
          error := lit "Please enter a video idea first.";
          copiedStates := [(lit "title", true)] |}
  /\ events (run (invoke (handleGenerateAll Scenario.camera_env))
                 (Scenario.start Scenario.blank_idea)) = [].
Proof.
  pose proof (generateAll_blank_idea_rejected Scenario.camera_env
                (Scenario.start Scenario.blank_idea)
                ltac:(vm_compute; reflexivity)) as H.
  cbv zeta in H.
  destruct H as (He & Hev & _).
  split; [vm_compute; reflexivity|]. split; [|exact Hev].
  vm_compute. reflexivity.
Defined.

(** C5. When the text generation call of a GenerateAll run throws, the run
    ends with the fixed text-generation message as error, no image call was
    made (the text call is the only provider call of the run), the
    thumbnail is unset, and the three busy flags are false. *)
Theorem generateAll_text_failure :
  forall env st e,
    blank (videoIdea (ui st)) = false ->
    outcome (generateTextContent env (videoIdea (ui st)))
            (run generateAll_transition st) = Throw e ->
    let fin := run (invoke (handleGenerateAll env)) st in
    error (ui fin) = lit "Failed to generate video details from AI."
    /\ requests (events fin)
       = requests (events st)
         ++ [Sdk.GenerateContent (text_request (videoIdea (ui st)))]
    /\ thumbnailUrl (ui fin) = []
    /\ isTextLoading (ui fin) = false
    /\ isThumbnailLoading (ui fin) = false
    /\ isLoading (ui fin) = false.
Proof.
  intros env st e Hb Ht fin. subst fin. open_store st. revert Ht.
  unfold blank in Hb. open_handler. rewrite Hb.
  rewrite generateTextContent_eq. cbn [ui events]. cbv zeta.
  destruct (text_reply env evs idea) as [cause|v].
  - intros _. cbn. repeat split.
    rewrite !requests_app. cbn [requests]. now rewrite !app_nil_r.
  - cbn. discriminate.
Qed.

Lemma generateAll_text_failure_witness :
  let fin := run (invoke (handleGenerateAll Scenario.down_env))
                 (Scenario.start Scenario.refining) in
  error (ui fin) = lit "Failed to generate video details from AI."
  /\ requests (events fin)
     = [Sdk.GenerateContent (text_request (lit "Unboxing a new camera"))]
  /\ thumbnailUrl (ui fin) = []
  /\ isTextLoading (ui fin) = false
  /\ isThumbnailLoading (ui fin) = false
  /\ isLoading (ui fin) = false.
Proof.
  exact (generateAll_text_failure Scenario.down_env (Scenario.start Scenario.refining)
           (ErrorObject text_failure)
           ltac:(vm_compute; reflexivity) ltac:(vm_compute; reflexivity)).
Defined.

(** C10. When the text step of a GenerateAll run fails, the thumbnail
    prompt at the end of the run is the one the run started with. The
    transition that opens the run clears the generated content, the
    thumbnail, the error and the copied flags and leaves the prompt alone;
    the prompt is written only once the text step has returned. *)
Theorem generateAll_text_failure_keeps_prompt :
  forall env st e,
    blank (videoIdea (ui st)) = false ->
    outcome (generateTextContent env (videoIdea (ui st)))
            (run generateAll_transition st) = Throw e ->
    thumbnailPrompt (ui (run (invoke (handleGenerateAll env)) st))
      = thumbnailPrompt (ui st)
    /\ generatedContent (ui (run generateAll_transition st)) = JNull
    /\ thumbnailUrl (ui (run generateAll_transition st)) = []
    /\ error (ui (run generateAll_transition st)) = []
    /\ copiedStates (ui (run generateAll_transition st)) = []
    /\ thumbnailPrompt (ui (run generateAll_transition st)) = thumbnailPrompt (ui st).
Proof.
  intros env st e Hb Ht. split; [|repeat split]. open_store st. revert Ht.
  unfold blank in Hb. open_handler. rewrite Hb.
  rewrite generateTextContent_eq. cbn [ui events]. cbv zeta.
  destruct (text_reply env evs idea) as [cause|v].
  - intros _. reflexivity.
  - cbn. discriminate.
Qed.

Lemma generateAll_text_failure_keeps_prompt_witness :
  thumbnailPrompt (ui (run (invoke (handleGenerateAll Scenario.down_env))
                           (Scenario.start Scenario.refining)))
  = lit "A camera on a glacier at dawn".
Proof.
  exact (proj1 (generateAll_text_failure_keeps_prompt Scenario.down_env
                  (Scenario.start Scenario.refining) (ErrorObject text_failure)
                  ltac:(vm_compute; reflexivity) ltac:(vm_compute; reflexivity))).
Defined.

Lemma thumbnail_prompt_includes_title withImage title style :
  includes title (thumbnail_prompt withImage title style).
Proof.
  unfold thumbnail_prompt. destruct withImage;
    apply JsFacts.includes_app_r; apply (JsFacts.includes_app_r [dq]);
    apply JsFacts.includes_app_l; exists [], []; now rewrite app_nil_r.
Qed.

Lemma thumbnail_prompt_forbids_text withImage title style :
  includes (lit "Do NOT include any text") (thumbnail_prompt withImage title style).
Proof.
  assert (H : includes (lit "Do NOT include any text") (styleInstruction style)).
  { unfold styleInstruction. do 2 apply JsFacts.includes_app_r.
    exists (lit ", ultra-realistic, professional, high-contrast, eye-catching. IMPORTANT: "),
           (lit ", logos, or watermarks.").
    vm_compute. reflexivity. }
  unfold thumbnail_prompt. destruct withImage;
    do 5 apply JsFacts.includes_app_r; exact H.
Qed.

(** C4. In a GenerateAll run whose text call returns an object with the
    string [title] as [seoTitle], the thumbnail prompt stored at the end
    contains [title] and the instruction not to include any text. The
    prompt is built after the text call has completed: while the text call
    is awaited the state still shows the prompt the run started with, and
    the next provider call, the only other one of the run, is issued with
    the new prompt on screen and carries that very prompt: to [editImage]
    with the uploaded image when there is one, to [generateImageFromText]
    otherwise. *)
Theorem generateAll_prompt_from_title :
  forall env st members title,
    blank (videoIdea (ui st)) = false ->
    outcome (generateTextContent env (videoIdea (ui st)))
            (run generateAll_transition st) = Normal (JObject members) ->
    member (lit "seoTitle") members = Some (JString title) ->
    let fin := run (invoke (handleGenerateAll env)) st in
    let prompt := thumbnail_prompt (has_image (ui st)) title (thumbnailStyle (ui st)) in
    thumbnailPrompt (ui fin) = prompt
    /\ includes title prompt
    /\ includes (lit "Do NOT include any text") prompt
    /\ exists duringText duringImage rest,
         events fin
         = events st
           ++ Requested (Sdk.GenerateContent (text_request (videoIdea (ui st)))) duringText
              :: Requested
                   (match userImage (ui st) with
                    | Some img =>
                        Sdk.GenerateContent
                          (edit_request (Some (data img)) (mimeType img) prompt)
                    | None => Sdk.GenerateImages (image_request prompt)
                    end) duringImage
              :: rest
         /\ requests rest = []
         /\ thumbnailPrompt duringText = thumbnailPrompt (ui st)
         /\ generatedContent duringText = JNull
         /\ thumbnailPrompt duringImage = prompt
         /\ generatedContent duringImage = JObject members.
Proof.
  intros env st members title Hb Ht Hm fin prompt. subst fin prompt.
  split; [|split; [apply thumbnail_prompt_includes_title
                  |split; [apply thumbnail_prompt_forbids_text|]]];
    open_store st; revert Ht; unfold blank in Hb; unfold has_image;
    open_handler; rewrite Hb;
    rewrite generateTextContent_eq; cbn [ui events]; cbv zeta;
    (destruct (text_reply env evs idea) as [cause|v]; [cbn; discriminate|]);
    cbn [fst snd]; intros Hv; injection Hv as ->;
    unfold seoTitle, shown_value; open_handler; rewrite Hm;
    destruct image as [img|]; cbn [userImage];
    [rewrite editImage_eq | rewrite generateImageFromText_eq
    |rewrite editImage_eq | rewrite generateImageFromText_eq];
    cbn [ui events]; cbv zeta;
    match goal with |- context [match ?r with inl _ => _ | inr _ => _ end] =>
      destruct r end; cbn [ui events fst snd thumbnailPrompt];
    try reflexivity;
    do 3 eexists; (split; [rewrite <- !app_assoc; cbn [app]; reflexivity|]);
    cbn; repeat split.
Qed.

Lemma generateAll_prompt_from_title_witness :
  let fin := run (invoke (handleGenerateAll Scenario.camera_env))
                 (Scenario.start Scenario.camera_idea) in
  thumbnailPrompt (ui fin)
  = lit "Create a YouTube thumbnail for a video titled " ++ [dq]
    ++ lit "I Unboxed the Smartest Camera of 2024" ++ [dq]
    ++ lit ". Style: Cinematic, ultra-realistic, professional, high-contrast, eye-catching. IMPORTANT: Do NOT include any text, logos, or watermarks."
  /\ requests (events fin)
     = [Sdk.GenerateContent (text_request (lit "Unboxing a new camera"));
        Sdk.GenerateImages (image_request (thumbnailPrompt (ui fin)))].
Proof.
  pose proof (generateAll_prompt_from_title Scenario.camera_env
                (Scenario.start Scenario.camera_idea)
                [(lit "seoTitle", JString (lit "I Unboxed the Smartest Camera of 2024"));
                 (lit "description", JString (lit "Hook. Summary."))]
                (lit "I Unboxed the Smartest Camera of 2024")
                ltac:(vm_compute; reflexivity) ltac:(vm_compute; reflexivity)
                ltac:(vm_compute; reflexivity)) as H.
  cbv zeta in H. destruct H as (Hp & _ & _ & _).
  split.
  - rewrite Hp. vm_compute. reflexivity.
  - vm_compute. reflexivity.
Defined.

(* ------------------------------------------------------------------ *)
(** *** The busy flags at the end of a run *)

(** Splits on every outcome the environment can give a run. *)
Ltac each_reply :=
  repeat match goal with
         | |- context [match ToString ?env ?x with inl _ => _ | inr _ => _ end] =>
             destruct (ToString env x)
         | |- context [match member ?k ?ms with Some _ => _ | None => _ end] =>
             destruct (member k ms) as [[| | | | |]|]
         | |- context [match text_reply ?env ?evs ?t with inl _ => _ | inr _ => _ end] =>
             destruct (text_reply env evs t) as [?|[| | | | |]]
         | |- context [match edit_reply ?env ?evs ?d ?m ?p with inl _ => _ | inr _ => _ end] =>
             destruct (edit_reply env evs d m p)
         | |- context [match image_reply ?env ?evs ?p with inl _ => _ | inr _ => _ end] =>
             destruct (image_reply env evs p)
         | |- context [match ?image with Some _ => _ | None => _ end] =>
             is_var image; destruct image
         | |- context [match at_index ?l ?i with Some _ => _ | None => _ end] =>
             destruct (at_index l i)
         | _ => progress open_handler
         | _ => rewrite generateTextContent_eq; cbv zeta
         | _ => rewrite editImage_eq; cbv zeta
         | _ => rewrite generateImageFromText_eq; cbv zeta
         end.

Section Flags.

Variable env : Env.

Lemma generateAll_ends_idle st :
  blank (videoIdea (ui st)) = false ->
  let fin := run (invoke (handleGenerateAll env)) st in
  isThumbnailLoading (ui fin) = false
  /\ isLoading (ui fin) = false
  /\ isTextLoading (ui fin) = false
  /\ outcome (invoke (handleGenerateAll env)) st = Normal tt.
Proof.
  intros Hb fin. subst fin. open_store st. unfold blank in Hb. open_handler.
  rewrite Hb. unfold seoTitle, shown_value, engine_error.
  each_reply; repeat split.
Qed.

Lemma generateAll_rejected st :
  blank (videoIdea (ui st)) = true ->
  let fin := run (invoke (handleGenerateAll env)) st in
  isThumbnailLoading (ui fin) = isThumbnailLoading (ui st)
  /\ isLoading (ui fin) = isLoading (ui st)
  /\ isTextLoading (ui fin) = isTextLoading (ui st)
  /\ outcome (invoke (handleGenerateAll env)) st = Normal tt.
Proof.
  intros Hb fin. subst fin. open_store st. unfold blank in Hb. open_handler.
  rewrite Hb. repeat split.
Qed.

Lemma regenerate_ends_idle st :
  blank (thumbnailPrompt (ui st)) = false ->
  let fin := run (invoke (handleRegenerateThumbnail env)) st in
  isThumbnailLoading (ui fin) = false
  /\ isLoading (ui fin) = isLoading (ui st)
  /\ isTextLoading (ui fin) = isTextLoading (ui st)
  /\ outcome (invoke (handleRegenerateThumbnail env)) st = Normal tt.
Proof.
  intros Hb fin. subst fin. open_store st. unfold blank in Hb. open_handler.
  rewrite Hb. each_reply; repeat split.
Qed.

Lemma regenerate_rejected st :
  blank (thumbnailPrompt (ui st)) = true ->
  let fin := run (invoke (handleRegenerateThumbnail env)) st in
  isThumbnailLoading (ui fin) = isThumbnailLoading (ui st)
  /\ isLoading (ui fin) = isLoading (ui st)
  /\ isTextLoading (ui fin) = isTextLoading (ui st)
  /\ outcome (invoke (handleRegenerateThumbnail env)) st = Normal tt.
Proof.
  intros Hb fin. subst fin. open_store st. unfold blank in Hb. open_handler.
  rewrite Hb. repeat split.
Qed.

Lemma edit_ends_idle st :
  blank (editPrompt (ui st)) || falsy (thumbnailUrl (ui st)) = false ->
  let fin := run (invoke (handleEditThumbnail env)) st in
  isThumbnailLoading (ui fin) = false
  /\ isLoading (ui fin) = isLoading (ui st)
  /\ isTextLoading (ui fin) = isTextLoading (ui st)
  /\ outcome (invoke (handleEditThumbnail env)) st = Normal tt.
Proof.
  intros Hb fin. subst fin. apply orb_false_elim in Hb. destruct Hb as [Hb Hu].
  open_store st. unfold blank in Hb. open_handler.
  rewrite Hb, Hu. unfold defined, engine_error.
  each_reply; repeat split.
Qed.

Lemma edit_rejected st :
  blank (editPrompt (ui st)) || falsy (thumbnailUrl (ui st)) = true ->
  let fin := run (invoke (handleEditThumbnail env)) st in
  isThumbnailLoading (ui fin) = isThumbnailLoading (ui st)
  /\ isLoading (ui fin) = isLoading (ui st)
  /\ isTextLoading (ui fin) = isTextLoading (ui st)
  /\ outcome (invoke (handleEditThumbnail env)) st = Normal tt.
Proof.
  intros Hb fin. subst fin. open_store st. unfold blank in Hb. open_handler.
  destruct (falsy (trim edit)); [repeat split|].
  simpl in Hb. rewrite Hb. repeat split.
Qed.

End Flags.

(** C6, as the specification states it, fails on the code. The idea field
    was emptied while an edit of the thumbnail is still awaited, so the
    thumbnail spinner is on; GenerateAll is started (its button only waits
    for [isLoading]), is turned down by its validation guard and returns
    before the [try] block: the run has ended, without any provider call,
    and the thumbnail-busy flag is still true. *)
Lemma generateAll_rejected_leaves_spinner_on :
  isThumbnailLoading Scenario.emptied_during_edit = true
  /\ isLoading Scenario.emptied_during_edit = false
  /\ invoke (handleGenerateAll Scenario.down_env)
            (Scenario.start Scenario.emptied_during_edit)
     = ({| ui := {| videoIdea := [];
                    generatedContent := generatedContent Scenario.emptied_during_edit;
                    thumbnailUrl := lit "data:image/jpeg;base64,T0xE";
                    userImage := None;
                    thumbnailStyle := lit "Cinematic";
                    thumbnailPrompt := lit "An older prompt";
                    editPrompt := lit "add a lightning bolt";
                    isLoading := false;
                    isTextLoading := false;
                    isThumbnailLoading := true;
                    error := lit "Please enter a video idea first.";
                    copiedStates := [] |};
           events := [] |}, Normal tt)
  /\ isThumbnailLoading
       (ui (run (invoke (handleGenerateAll Scenario.down_env))
                (Scenario.start Scenario.emptied_during_edit))) <> false.
Proof.
  split; [reflexivity|]. split; [reflexivity|]. split; [vm_compute; reflexivity|].
  vm_compute. discriminate.
Qed.

(** C6, amended. Every run of GenerateAll, RegenerateThumbnail or
    EditThumbnail that passes the validation guard of its operation ends,
    whatever the outcome of its steps, with thumbnail-busy false, and for
    GenerateAll with overall-busy and text-busy false as well; a run the
    guard turns down returns before the [try] block and leaves the three
    flags as they were, so that a run started with the three flags false
    ends with the three flags false. No run lets an exception escape. *)
Theorem busy_flags_after_run :
  forall env st,
    let generated := invoke (handleGenerateAll env) in
    let regenerated := invoke (handleRegenerateThumbnail env) in
    let edited := invoke (handleEditThumbnail env) in
    let passed (rejected : bool) (before : bool) := if rejected then before else false in
    isThumbnailLoading (ui (run generated st))
      = passed (blank (videoIdea (ui st))) (isThumbnailLoading (ui st))
    /\ isLoading (ui (run generated st))
       = passed (blank (videoIdea (ui st))) (isLoading (ui st))
    /\ isTextLoading (ui (run generated st))
       = passed (blank (videoIdea (ui st))) (isTextLoading (ui st))
    /\ isThumbnailLoading (ui (run regenerated st))
       = passed (blank (thumbnailPrompt (ui st))) (isThumbnailLoading (ui st))
    /\ isThumbnailLoading (ui (run edited st))
       = passed (blank (editPrompt (ui st)) || falsy (thumbnailUrl (ui st)))
                (isThumbnailLoading (ui st))
    /\ outcome generated st = Normal tt
    /\ outcome regenerated st = Normal tt
    /\ outcome edited st = Normal tt
    /\ (isLoading (ui st) = false ->
        isTextLoading (ui st) = false ->
        isThumbnailLoading (ui st) = false ->
        forall handler,
          In handler [generated; regenerated; edited] ->
          isLoading (ui (run handler st)) = false
          /\ isTextLoading (ui (run handler st)) = false
          /\ isThumbnailLoading (ui (run handler st)) = false).
Proof.
  intros env st generated regenerated edited passed.
  subst generated regenerated edited passed. cbv beta.
  destruct (blank (videoIdea (ui st))) eqn:Hg;
    [pose proof (generateAll_rejected env st Hg) as G
    |pose proof (generateAll_ends_idle env st Hg) as G];
  (destruct (blank (thumbnailPrompt (ui st))) eqn:Hr;
    [pose proof (regenerate_rejected env st Hr) as R
    |pose proof (regenerate_ends_idle env st Hr) as R]);
  (destruct (blank (editPrompt (ui st)) || falsy (thumbnailUrl (ui st))) eqn:He;
    [pose proof (edit_rejected env st He) as E
    |pose proof (edit_ends_idle env st He) as E]);
  cbv zeta in G, R, E;
  destruct G as (G1 & G2 & G3 & G4), R as (R1 & R2 & R3 & R4),
           E as (E1 & E2 & E3 & E4);
  (split; [assumption|]); (split; [assumption|]); (split; [assumption|]);
  (split; [assumption|]); (split; [assumption|]); (split; [assumption|]);
  (split; [assumption|]); (split; [assumption|]);
  intros I1 I2 I3 handler [<-|[<-|[<-|[]]]]; repeat split; congruence.
Qed.

Lemma busy_flags_after_run_witness :
  isThumbnailLoading
    (ui (run (invoke (handleGenerateAll Scenario.down_env))
             (Scenario.start Scenario.refining))) = false
  /\ isThumbnailLoading
       (ui (run (invoke (handleEditThumbnail Scenario.refusing_env))
                (Scenario.start Scenario.refining))) = false.
Proof.
  split.
  - exact (proj1 (busy_flags_after_run Scenario.down_env (Scenario.start Scenario.refining))).
  - exact (proj1 (proj2 (proj2 (proj2 (proj2
             (busy_flags_after_run Scenario.refusing_env
                (Scenario.start Scenario.refining))))))).
Defined.

(* ------------------------------------------------------------------ *)
(** *** Taking a data URL apart *)

Module DataUrl.

Lemma free_of_notin seps s c : free_of seps s = true -> In c seps -> ~ In c s.
Proof.
  unfold free_of. rewrite forallb_forall. intros H Hc Hs.
  specialize (H c Hs). apply negb_true_iff in H.
  assert (E : existsb (N.eqb c) seps = true).
  { apply existsb_exists. exists c. split; [exact Hc | apply N.eqb_refl]. }
  congruence.
Qed.

(** Up to the first separator, [split] copies its input. *)
Lemma split_app sep a b :
  ~ In sep a ->
  split sep (a ++ b) = (a ++ hd [] (split sep b)) :: tl (split sep b).
Proof.
  induction a as [|c a IH]; simpl; intros H.
  - pose proof (JsFacts.split_nonempty sep b). destruct (split sep b); [congruence|reflexivity].
  - destruct (N.eqb_spec c sep) as [->|_]; [tauto|].
    rewrite IH by tauto. reflexivity.
Qed.

Lemma split_sep sep b : split sep (sep :: b) = [] :: split sep b.
Proof. simpl. now rewrite N.eqb_refl. Qed.

Lemma first_piece_cons sep c s :
  c <> sep -> hd [] (split sep (c :: s)) = c :: hd [] (split sep s).
Proof.
  intros H. pose proof (JsFacts.split_nonempty sep s) as Hs.
  cbn [split]. destruct (N.eqb_spec c sep) as [E|_]; [contradiction|].
  destruct (split sep s); [congruence|reflexivity].
Qed.

Lemma first_piece sep a b :
  ~ In sep a -> hd [] (split sep (a ++ sep :: b)) = a.
Proof.
  intros H. rewrite split_app by exact H. rewrite split_sep. simpl. apply app_nil_r.
Qed.

(** The pieces [handleEditThumbnail] cuts a data URL into. *)
Lemma pieces_of_data_url mime bytes :
  free_of [44; 58; 59] mime = true ->
  free_of [44] bytes = true ->
  let pieces := split 44 (data_url mime bytes) in
  at_index pieces 1 = Some bytes
  /\ exists afterColon,
       at_index (split 58 (hd [] pieces)) 1 = Some afterColon
       /\ hd [] (split 59 afterColon) = mime.
Proof.
  intros Hm Hb pieces. subst pieces. unfold data_url.
  assert (Hcomma : ~ In 44 mime) by (apply (free_of_notin _ _ _ Hm); simpl; tauto).
  assert (Hcolon : ~ In 58 mime) by (apply (free_of_notin _ _ _ Hm); simpl; tauto).
  assert (Hsemi : ~ In 59 mime) by (apply (free_of_notin _ _ _ Hm); simpl; tauto).
  assert (Hbytes : ~ In 44 bytes) by (apply (free_of_notin _ _ _ Hb); simpl; tauto).
  replace (lit "data:" ++ mime ++ lit ";base64," ++ bytes)
    with ((lit "data:" ++ mime ++ lit ";base64") ++ 44 :: bytes)
    by (rewrite <- !app_assoc; reflexivity).
  rewrite split_app.
  2:{ rewrite !in_app_iff. intros [H|[H|H]]; [|tauto|];
      vm_compute in H; intuition discriminate. }
  rewrite split_sep, (JsFacts.split_without 44 bytes Hbytes). cbn [hd tl at_index nth_error].
  split; [reflexivity|].
  rewrite app_nil_r.
  replace (lit "data:" ++ mime ++ lit ";base64")
    with (lit "data" ++ 58 :: (mime ++ lit ";base64")) by reflexivity.
  rewrite (split_app 58 (lit "data")).
  2:{ intros H. vm_compute in H. intuition discriminate. }
  rewrite split_sep. cbn [hd tl at_index nth_error].
  rewrite (split_app 58 mime) by exact Hcolon.
  cbn [nth_error]. eexists. split; [reflexivity|].
  change (hd [] (split 58 (lit ";base64"))) with (59 :: lit "base64").
  apply first_piece. exact Hsemi.
Qed.

(** The extension [handleDownloadThumbnail] reads off a data URL. *)
Lemma extension_of_data_url type subtype bytes :
  free_of [47; 58; 59] type = true ->
  free_of [47; 58; 59] subtype = true ->
  subtype <> [] ->
  download_extension (data_url (type ++ 47 :: subtype) bytes) = subtype.
Proof.
  intros Ht Hs Hne. unfold download_extension, data_url.
  assert (T47 : ~ In 47 type) by (apply (free_of_notin _ _ _ Ht); simpl; tauto).
  assert (T58 : ~ In 58 type) by (apply (free_of_notin _ _ _ Ht); simpl; tauto).
  assert (T59 : ~ In 59 type) by (apply (free_of_notin _ _ _ Ht); simpl; tauto).
  assert (S47 : ~ In 47 subtype) by (apply (free_of_notin _ _ _ Hs); simpl; tauto).
  assert (S58 : ~ In 58 subtype) by (apply (free_of_notin _ _ _ Hs); simpl; tauto).
  assert (S59 : ~ In 59 subtype) by (apply (free_of_notin _ _ _ Hs); simpl; tauto).
  replace (lit "data:" ++ (type ++ 47 :: subtype) ++ lit ";base64," ++ bytes)
    with (lit "data" ++ 58 :: ((type ++ 47 :: subtype) ++ 59 :: lit "base64," ++ bytes))
    by reflexivity.
  rewrite (split_app 58 (lit "data")).
  2:{ intros H. vm_compute in H. intuition discriminate. }
  rewrite split_sep. cbn [hd tl at_index nth_error].
  rewrite (split_app 58 (type ++ 47 :: subtype)).
  2:{ rewrite in_app_iff. intros [H|[H|H]]; [tauto|discriminate|tauto]. }
  cbn [nth_error].
  rewrite (first_piece_cons 58 59) by discriminate.
  rewrite first_piece.
  2:{ rewrite in_app_iff. intros [H|[H|H]]; [tauto|discriminate|tauto]. }
  rewrite (split_app 47 type) by exact T47.
  rewrite split_sep. cbn [tl at_index nth_error].
  rewrite (JsFacts.split_without 47 subtype S47). cbn [hd].
  destruct subtype; [congruence|reflexivity].
Qed.

Lemma extension_without_colon url :
  free_of [58] url = true -> download_extension url = lit "jpeg".
Proof.
  intros H. unfold download_extension.
  rewrite JsFacts.split_without; [reflexivity|].
  apply (free_of_notin _ _ _ H). simpl; tauto.
Qed.

End DataUrl.

(* ------------------------------------------------------------------ *)
(** *** EditThumbnail *)

Section EditFacts.

Variable env : Env.

(** What a run of EditThumbnail on a well-formed thumbnail comes to. *)
Lemma editThumbnail_step st mime bytes :
  blank (editPrompt (ui st)) = false ->
  thumbnailUrl (ui st) = data_url mime bytes ->
  free_of [44; 58; 59] mime = true ->
  free_of [44] bytes = true ->
  let fin := run (invoke (handleEditThumbnail env)) st in
  let reply := edit_reply env (events st) (Some bytes) mime (editPrompt (ui st)) in
  requests (events fin)
  = requests (events st)
    ++ [Sdk.GenerateContent (edit_request (Some bytes) mime (editPrompt (ui st)))]
  /\ editPrompt (ui fin) = editPrompt (ui st)
  /\ match reply with
     | inr url => thumbnailUrl (ui fin) = url /\ error (ui fin) = []
     | inl _ => thumbnailUrl (ui fin) = thumbnailUrl (ui st)
                /\ error (ui fin) = edit_failure
     end.
Proof.
  intros Hb Hu Hm Hbytes fin reply. subst fin reply.
  destruct (DataUrl.pieces_of_data_url mime bytes Hm Hbytes) as (P1 & afterColon & P2 & P3).
  cbv zeta in P1, P2.
  open_store st. subst url. unfold blank in Hb. open_handler. rewrite Hb.
  change (falsy (data_url mime bytes)) with false. cbv iota.
  rewrite P1, P2. unfold defined. open_handler. rewrite P3.
  rewrite editImage_eq. cbn [ui events]. cbv zeta.
  destruct (edit_reply env evs (Some bytes) mime edit) as [cause|url];
    open_handler; rewrite !requests_app; cbn [requests]; rewrite ?app_nil_r;
    repeat split.
Qed.

Lemma editImage_outcome_reply base64ImageData mimeType prompt st :
  outcome (editImage env base64ImageData mimeType prompt) st
  = match edit_reply env (events st) base64ImageData mimeType prompt with
    | inr url => Normal url
    | inl _ => Throw (ErrorObject edit_failure)
    end.
Proof.
  unfold outcome. rewrite editImage_eq. cbv zeta.
  destruct (edit_reply env (events st) base64ImageData mimeType prompt); reflexivity.
Qed.

End EditFacts.

(** C7. In a state whose edit instruction is not empty (as the guard of
    the handler reads it: something is left after trimming) and whose
    thumbnail is the data URL of [bytes] with mime type [mime],
    EditThumbnail makes one provider call, [editImage] on exactly [bytes],
    [mime] and the instruction: the bytes and the type of the thumbnail on
    screen, whatever the uploaded image is. When the call succeeds the
    thumbnail becomes the returned value, when it fails the thumbnail is
    kept and the error is set. Hence a second edit works on the result of
    the first. *)
Theorem editThumbnail_edits_current_thumbnail :
  forall env st mime bytes,
    blank (editPrompt (ui st)) = false ->
    thumbnailUrl (ui st) = data_url mime bytes ->
    free_of [44; 58; 59] mime = true ->
    free_of [44] bytes = true ->
    let instruction := editPrompt (ui st) in
    let edit := editImage env (Some bytes) mime instruction in
    let fin := run (invoke (handleEditThumbnail env)) st in
    requests (events fin)
    = requests (events st)
      ++ [Sdk.GenerateContent (edit_request (Some bytes) mime instruction)]
    /\ (forall url,
          outcome edit (run edit_transition st) = Normal url ->
          thumbnailUrl (ui fin) = url /\ error (ui fin) = [])
    /\ (forall e,
          outcome edit (run edit_transition st) = Throw e ->
          thumbnailUrl (ui fin) = thumbnailUrl (ui st)
          /\ error (ui fin) = lit "Failed to edit image with AI.")
    /\ (forall mime' bytes',
          outcome edit (run edit_transition st) = Normal (data_url mime' bytes') ->
          free_of [44; 58; 59] mime' = true ->
          free_of [44] bytes' = true ->
          requests (events (run (invoke (handleEditThumbnail env)) fin))
          = requests (events st)
            ++ [Sdk.GenerateContent (edit_request (Some bytes) mime instruction);
                Sdk.GenerateContent (edit_request (Some bytes') mime' instruction)]).
Proof.
  intros env st mime bytes Hb Hu Hm Hbytes instruction edit fin.
  subst instruction edit fin.
  pose proof (editThumbnail_step env st mime bytes Hb Hu Hm Hbytes) as (Hreq & Hedit & Hres).
  assert (Hout : forall r,
            outcome (editImage env (Some bytes) mime (editPrompt (ui st)))
                    (run edit_transition st) = r ->
            r = match edit_reply env (events st) (Some bytes) mime (editPrompt (ui st)) with
                | inr url => Normal url
                | inl _ => Throw (ErrorObject edit_failure)
                end).
  { intros r <-. rewrite editImage_outcome_reply. reflexivity. }
  split; [exact Hreq|]. split; [|split].
  - intros url H. apply Hout in H.
    destruct (edit_reply env (events st) (Some bytes) mime (editPrompt (ui st)));
      [discriminate|]. injection H as ->. exact Hres.
  - intros e H. apply Hout in H.
    destruct (edit_reply env (events st) (Some bytes) mime (editPrompt (ui st)));
      [|discriminate]. exact Hres.
  - intros mime' bytes' H Hm' Hb'. apply Hout in H.
    destruct (edit_reply env (events st) (Some bytes) mime (editPrompt (ui st)))
      as [cause|url]; [discriminate|]. injection H as <-. destruct Hres as [Hurl _].
    pose proof (editThumbnail_step env
                  (run (invoke (handleEditThumbnail env)) st) mime' bytes'
                  ltac:(rewrite Hedit; exact Hb) Hurl Hm' Hb') as (Hreq' & _ & _).
    rewrite Hreq', Hreq, Hedit, <- app_assoc. reflexivity.
Qed.

Lemma editThumbnail_edits_current_thumbnail_witness :
  let once := run (invoke (handleEditThumbnail Scenario.editing_env))
                  (Scenario.start Scenario.refining) in
  let twice := run (invoke (handleEditThumbnail Scenario.editing_env)) once in
  requests (events once)
  = [Sdk.GenerateContent
       (edit_request (Some (lit "T0xE")) (lit "image/jpeg") (lit "add a lightning bolt"))]
  /\ thumbnailUrl (ui once) = lit "data:image/webp;base64,V0VCUA=="
  /\ requests (events twice)
     = [Sdk.GenerateContent
          (edit_request (Some (lit "T0xE")) (lit "image/jpeg") (lit "add a lightning bolt"));
        Sdk.GenerateContent
          (edit_request (Some (lit "V0VCUA==")) (lit "image/webp")
             (lit "add a lightning bolt"))].
Proof.
  pose proof (editThumbnail_edits_current_thumbnail Scenario.editing_env
                (Scenario.start Scenario.refining) (lit "image/jpeg") (lit "T0xE")
                ltac:(vm_compute; reflexivity) ltac:(vm_compute; reflexivity)
                ltac:(vm_compute; reflexivity) ltac:(vm_compute; reflexivity)) as H.
  cbv zeta in H. destruct H as (H1 & H2 & _ & H4).
  split; [exact H1|]. split.
  - exact (proj1 (H2 (lit "data:image/webp;base64,V0VCUA==")
                     ltac:(vm_compute; reflexivity))).
  - exact (H4 (lit "image/webp") (lit "V0VCUA==")
              ltac:(vm_compute; reflexivity) ltac:(vm_compute; reflexivity)
              ltac:(vm_compute; reflexivity)).
Defined.

(* ------------------------------------------------------------------ *)
(** *** RegenerateThumbnail *)

(** C8. With a thumbnail prompt that is empty or white space only,
    RegenerateThumbnail stores its validation message and makes no provider
    call. Otherwise it makes one provider call, issued while the state shows
    thumbnail-busy true, no error and an empty quick-edit field: [editImage]
    on the uploaded image when one is present, [generateImageFromText]
    otherwise, in both cases with the prompt currently in the state. *)
Theorem regenerateThumbnail_behaviour :
  forall env st,
    let fin := run (invoke (handleRegenerateThumbnail env)) st in
    let prompt := thumbnailPrompt (ui st) in
    (blank prompt = true ->
       error (ui fin) = lit "Thumbnail prompt cannot be empty."
       /\ events fin = events st)
    /\ (blank prompt = false ->
        exists during rest,
          events fin
          = events st
            ++ Requested
                 (match userImage (ui st) with
                  | Some img =>
                      Sdk.GenerateContent
                        (edit_request (Some (data img)) (mimeType img) prompt)
                  | None => Sdk.GenerateImages (image_request prompt)
                  end) during
               :: rest
          /\ requests rest = []
          /\ isThumbnailLoading during = true
          /\ error during = []
          /\ editPrompt during = []
          /\ thumbnailPrompt during = prompt
          /\ userImage during = userImage (ui st)).
Proof.
  intros env st fin prompt. subst fin prompt. open_store st. unfold blank.
  split; intros Hb; open_handler; rewrite Hb.
  - split; reflexivity.
  - destruct image as [img|];
      [rewrite editImage_eq | rewrite generateImageFromText_eq];
      cbn [ui events]; cbv zeta;
      match goal with |- context [match ?r with inl _ => _ | inr _ => _ end] =>
        destruct r end; open_handler;
      do 2 eexists; (split; [rewrite <- ?app_assoc; cbn [app]; reflexivity|]);
      repeat split.
Qed.

Lemma regenerateThumbnail_behaviour_witness :
  error (ui (run (invoke (handleRegenerateThumbnail Scenario.camera_env))
                 (Scenario.start Scenario.camera_idea)))
  = lit "Thumbnail prompt cannot be empty."
  /\ exists during rest,
       events (run (invoke (handleRegenerateThumbnail Scenario.camera_env))
                   (Scenario.start Scenario.refining))
       = Requested
           (Sdk.GenerateContent
              (edit_request (Some (lit "VVBMT0FE")) (lit "image/png")
                 (lit "A camera on a glacier at dawn"))) during
         :: rest
       /\ isThumbnailLoading during = true
       /\ error during = []
       /\ editPrompt during = [].
Proof.
  split.
  - exact (proj1 (proj1 (regenerateThumbnail_behaviour Scenario.camera_env
                           (Scenario.start Scenario.camera_idea))
                    ltac:(vm_compute; reflexivity))).
  - destruct (proj2 (regenerateThumbnail_behaviour Scenario.camera_env
                       (Scenario.start Scenario.refining))
                ltac:(vm_compute; reflexivity))
      as (during & rest & Hev & _ & Hbusy & Herr & Hedit & _).
    exists during, rest. repeat split; assumption.
Defined.

(* ------------------------------------------------------------------ *)
(** *** DownloadThumbnail *)

(** C9. Without a thumbnail DownloadThumbnail does nothing. With one it
    offers the thumbnail for download under the name
    [dekhao-thumbnail-<now>.<extension>], where [now] is the clock's
    reading in milliseconds, and leaves the state as it is. The extension
    is the subtype of the mime type in the stored data URL ([png] for
    [image/png]), and [jpeg] when no mime type can be read off the URL or
    the mime type has no subtype. *)
Theorem downloadThumbnail_behaviour :
  forall env st,
    (thumbnailUrl (ui st) = [] ->
       invoke (handleDownloadThumbnail env) st = (st, Normal tt))
    /\ (thumbnailUrl (ui st) <> [] ->
        invoke (handleDownloadThumbnail env) st
        = ({| ui := ui st;
              events := events st
                ++ [Downloaded (thumbnailUrl (ui st))
                      (lit "dekhao-thumbnail-" ++ decimal (Date_now env (events st))
                       ++ lit "." ++ download_extension (thumbnailUrl (ui st)))] |},
           Normal tt))
    /\ (forall type subtype bytes,
          free_of [47; 58; 59] type = true ->
          free_of [47; 58; 59] subtype = true ->
          subtype <> [] ->
          download_extension (data_url (type ++ 47 :: subtype) bytes) = subtype)
    /\ (forall bytes, download_extension (data_url (lit "image/png") bytes) = lit "png")
    /\ (forall url, free_of [58] url = true -> download_extension url = lit "jpeg")
    /\ (forall mime bytes,
          free_of [47; 58; 59] mime = true ->
          download_extension (data_url mime bytes) = lit "jpeg").
Proof.
  intros env st. split; [|split; [|split; [|split; [|split]]]].
  - intros H. unfold invoke, handleDownloadThumbnail. rewrite H. reflexivity.
  - intros H. unfold invoke, handleDownloadThumbnail, download_name, emit.
    destruct (thumbnailUrl (ui st)); [congruence|reflexivity].
  - apply DataUrl.extension_of_data_url.
  - intros bytes.
    apply (DataUrl.extension_of_data_url (lit "image") (lit "png") bytes);
      [reflexivity | reflexivity | discriminate].
  - apply DataUrl.extension_without_colon.
  - intros mime bytes Hm. unfold download_extension, data_url.
    assert (M47 : ~ In 47 mime) by (apply (DataUrl.free_of_notin _ _ _ Hm); simpl; tauto).
    assert (M58 : ~ In 58 mime) by (apply (DataUrl.free_of_notin _ _ _ Hm); simpl; tauto).
    assert (M59 : ~ In 59 mime) by (apply (DataUrl.free_of_notin _ _ _ Hm); simpl; tauto).
    replace (lit "data:" ++ mime ++ lit ";base64," ++ bytes)
      with (lit "data" ++ 58 :: (mime ++ 59 :: lit "base64," ++ bytes)) by reflexivity.
    rewrite (DataUrl.split_app 58 (lit "data")).
    2:{ intros H. vm_compute in H. intuition discriminate. }
    rewrite DataUrl.split_sep. cbn [hd tl at_index nth_error].
    rewrite (DataUrl.split_app 58 mime) by exact M58. cbn [nth_error].
    rewrite (DataUrl.first_piece_cons 58 59) by discriminate.
    rewrite DataUrl.first_piece by exact M59.
    rewrite (JsFacts.split_without 47 mime M47). reflexivity.
Qed.

Lemma downloadThumbnail_behaviour_witness :
  invoke (handleDownloadThumbnail Scenario.editing_env)
         (Scenario.start Scenario.png_on_screen)
  = ({| ui := Scenario.png_on_screen;
        events := [Downloaded (lit "data:image/png;base64,UE5H")
                     (lit "dekhao-thumbnail-1700000000000.png")] |},
     Normal tt)
  /\ invoke (handleDownloadThumbnail Scenario.editing_env)
            (Scenario.start Scenario.camera_idea)
     = (Scenario.start Scenario.camera_idea, Normal tt)
  /\ download_extension (lit "no mime type here") = lit "jpeg".
Proof.
  pose proof (downloadThumbnail_behaviour Scenario.editing_env
                (Scenario.start Scenario.png_on_screen))
    as (_ & Hsome & _ & Hpng & Hjpeg & _).
  pose proof (downloadThumbnail_behaviour Scenario.editing_env
                (Scenario.start Scenario.camera_idea)) as (Hnone & _).
  split; [|split].
  - rewrite (Hsome ltac:(discriminate)).
    change (thumbnailUrl (ui (Scenario.start Scenario.png_on_screen)))
      with (data_url (lit "image/png") (lit "UE5H")).
    rewrite Hpng. vm_compute. reflexivity.
  - exact (Hnone eq_refl).
  - exact (Hjpeg (lit "no mime type here") ltac:(vm_compute; reflexivity)).
Defined.

(* ================================================================== *)
(** ** More on the gateway *)

Module TrimFacts.

Lemma trimStart_spaces pre s :
  forallb is_js_space pre = true -> trimStart (pre ++ s) = trimStart s.
Proof.
  induction pre as [|c pre IH]; simpl; [reflexivity|].
  destruct (is_js_space c); simpl; [exact IH | discriminate].
Qed.

Lemma trimStart_kept s post :
  trimStart s <> [] -> trimStart (s ++ post) = trimStart s ++ post.
Proof.
  induction s as [|c s IH]; simpl; [congruence|].
  destruct (is_js_space c); [exact IH | reflexivity].
Qed.

Lemma trimEnd_spaces s post :
  forallb is_js_space post = true -> trimEnd (s ++ post) = trimEnd s.
Proof.
  intros H. unfold trimEnd. rewrite rev_app_distr, trimStart_spaces; [reflexivity|].
  now rewrite JsFacts.forallb_rev.
Qed.

(** White space around a text does not survive [trim]. *)
Lemma trim_surrounded pre body post :
  forallb is_js_space pre = true ->
  forallb is_js_space post = true ->
  trim (pre ++ body ++ post) = trim body.
Proof.
  intros Hpre Hpost. unfold trim. rewrite trimStart_spaces by exact Hpre.
  destruct (trimStart body) as [|c r] eqn:E.
  - apply JsFacts.trimStart_blank in E.
    assert (B : trimStart (body ++ post) = []).
    { apply JsFacts.trimStart_blank. now rewrite forallb_app, E, Hpost. }
    now rewrite B.
  - rewrite trimStart_kept by congruence. rewrite E. now apply trimEnd_spaces.
Qed.

End TrimFacts.

(** X1. White space around the payload never matters to
    [generateTextContent]: with any ECMAScript white space before and after
    it (a byte order mark or a no-break space included, which [JSON.parse]
    alone would reject), the outcome is the one of the bare payload. *)
Theorem generateTextContent_ignores_surrounding_space :
  forall env title st response pre body post,
    generateContent_answer env (events st) (text_request title) = inr response ->
    Sdk.response_text response = Some (pre ++ body ++ post) ->
    forallb is_js_space pre = true ->
    forallb is_js_space post = true ->
    outcome (generateTextContent env title) st
    = match JSON_parse (trim body) with
      | Some v => Normal v
      | None => Throw (ErrorObject text_failure)
      end.
Proof.
  intros env title st response pre body post Ha Ht Hpre Hpost.
  unfold outcome. rewrite generateTextContent_eq. unfold text_reply. cbv zeta.
  rewrite Ha, Ht, TrimFacts.trim_surrounded by assumption.
  destruct (JSON_parse (trim body)); reflexivity.
Qed.

Lemma generateTextContent_ignores_surrounding_space_witness :
  JSON_parse Samples.padded_payload = None
  /\ outcome (generateTextContent Samples.padded_env (lit "Unboxing a new camera"))
             (Scenario.start Scenario.camera_idea)
     = Normal (JObject [(lit "seoTitle", JString (lit "T"));
                        (lit "description", JString (lit "D"))]).
Proof.
  split; [vm_compute; reflexivity|].
  exact (generateTextContent_ignores_surrounding_space Samples.padded_env
           (lit "Unboxing a new camera") (Scenario.start Scenario.camera_idea)
           (Scenario.response_of [Scenario.text_part Samples.padded_payload])
           [65279; 10] (quoted "{'seoTitle': 'T', 'description': 'D'}") [160; 13; 10]
           ltac:(vm_compute; reflexivity) ltac:(vm_compute; reflexivity)
           ltac:(vm_compute; reflexivity) ltac:(vm_compute; reflexivity)).
Defined.

(** X2. When the provider returns at least one image and the first one has
    bytes, [generateImageFromText] returns the JPEG data URL of those bytes
    (any further image is ignored), after exactly one provider call, without
    writing to the console or touching the component state. *)
Theorem generateImageFromText_returns_first_image :
  forall env prompt st response first others image bytes,
    generateImages_answer env (events st) (image_request prompt) = inr response ->
    Sdk.generatedImages response = Some (first :: others) ->
    Sdk.image first = Some image ->
    Sdk.imageBytes image = Some bytes ->
    generateImageFromText env prompt st
    = ({| ui := ui st;
          events := events st
                    ++ [Requested (Sdk.GenerateImages (image_request prompt)) (ui st)] |},
       Normal (data_url (lit "image/jpeg") bytes)).
Proof.
  intros env prompt st response first others image bytes Ha Hi Hf Hb.
  rewrite generateImageFromText_eq. unfold image_reply. cbv zeta.
  rewrite Ha, Hi, Hf, Hb. reflexivity.
Qed.

Lemma generateImageFromText_returns_first_image_witness :
  outcome (generateImageFromText Scenario.camera_env (lit "A camera on a glacier"))
          (Scenario.start Scenario.camera_idea)
  = Normal (lit "data:image/jpeg;base64,SlBFRw==").
Proof.
  exact (f_equal snd
           (generateImageFromText_returns_first_image Scenario.camera_env
              (lit "A camera on a glacier") (Scenario.start Scenario.camera_idea)
              (Scenario.images_of (lit "SlBFRw=="))
              {| Sdk.image := Some {| Sdk.imageBytes := Some (lit "SlBFRw==") |} |} []
              {| Sdk.imageBytes := Some (lit "SlBFRw==") |} (lit "SlBFRw==")
              eq_refl eq_refl eq_refl eq_refl)).
Defined.

(** X3. Every failure of [generateImageFromText] reaches the caller as an
    [Error] with the one message of [image_failure]. In particular, when
    the provider answers without any image, the error the code raises for
    that case is caught by the function's own [catch]: its message goes to
    the console and the caller gets the fixed one. *)
Theorem generateImageFromText_one_failure_message :
  forall env prompt st,
    (forall e,
       outcome (generateImageFromText env prompt) st = Throw e ->
       e = ErrorObject (lit "Failed to generate thumbnail from AI."))
    /\ (forall response,
          generateImages_answer env (events st) (image_request prompt) = inr response ->
          Sdk.generatedImages response = Some [] \/ Sdk.generatedImages response = None ->
          generateImageFromText env prompt st
          = ({| ui := ui st;
                events := events st
                  ++ [Requested (Sdk.GenerateImages (image_request prompt)) (ui st);
                      ConsoleError (Some (lit "Error generating thumbnail:"))
                        (ErrorObject (lit "No thumbnail was generated."))] |},
             Throw (ErrorObject (lit "Failed to generate thumbnail from AI.")))).
Proof.
  intros env prompt st. split.
  - intros e. unfold outcome. rewrite generateImageFromText_eq. cbv zeta.
    destruct (image_reply env (events st) prompt); simpl; intros H; inversion H; reflexivity.
  - intros response Ha Hnone. rewrite generateImageFromText_eq. unfold image_reply.
    cbv zeta. rewrite Ha. destruct Hnone as [-> | ->]; now rewrite <- app_assoc.
Qed.

Lemma generateImageFromText_one_failure_message_witness :
  outcome (generateImageFromText Samples.no_image_env (lit "A camera on a glacier"))
          (Scenario.start Scenario.camera_idea)
  = Throw (ErrorObject (lit "Failed to generate thumbnail from AI.")).
Proof.
  exact (f_equal snd
           (proj2 (generateImageFromText_one_failure_message Samples.no_image_env
                     (lit "A camera on a glacier") (Scenario.start Scenario.camera_idea))
                  {| Sdk.generatedImages := Some [] |} eq_refl (or_introl eq_refl))).
Defined.

(** X4. [editImage] returns the data URL of the first part that carries
    inline data: parts without inline data before it are skipped, whatever
    follows it is ignored, and a mime type or data the part leaves out is
    spelled [undefined] in the URL. *)
Theorem editImage_returns_first_inline_image :
  forall env base64ImageData mimeType prompt st response candidate others content
         before blob caption following,
    generateContent_answer env (events st)
      (edit_request base64ImageData mimeType prompt) = inr response ->
    Sdk.candidates response = Some (candidate :: others) ->
    Sdk.content candidate = Some content ->
    Sdk.parts content
    = Some (before ++ {| Sdk.inlineData := Some blob; Sdk.text := caption |} :: following) ->
    Forall (fun part => Sdk.inlineData part = None) before ->
    outcome (editImage env base64ImageData mimeType prompt) st
    = Normal (data_url (shown_text (Sdk.mimeType blob)) (shown_text (Sdk.data blob)))
    /\ events (run (editImage env base64ImageData mimeType prompt) st)
       = events st
         ++ [Requested (Sdk.GenerateContent (edit_request base64ImageData mimeType prompt))
                       (ui st)].
Proof.
  intros env base64ImageData mimeType prompt st response candidate others content
    before blob caption following Ha Hc Hct Hp Hbefore.
  assert (Hscan : first_inline_image
                    (before ++ {| Sdk.inlineData := Some blob; Sdk.text := caption |}
                            :: following)
                  = Some (data_url (shown_text (Sdk.mimeType blob))
                                   (shown_text (Sdk.data blob)))).
  { clear Hp. induction Hbefore as [|part ps Hpart _ IH]; simpl; [reflexivity|].
    rewrite Hpart. exact IH. }
  unfold outcome, run. rewrite editImage_eq. unfold edit_reply. cbv zeta.
  rewrite Ha, Hc, Hct, Hp, Hscan. split; reflexivity.
Qed.

Lemma editImage_returns_first_inline_image_witness :
  outcome (editImage Scenario.camera_env (Some (lit "T0xE")) (lit "image/jpeg")
             (lit "add a lightning bolt"))
          (Scenario.start Scenario.png_on_screen)
  = Normal (lit "data:image/png;base64,UE5H").
Proof.
  refine (proj1 (editImage_returns_first_inline_image Scenario.camera_env
            (Some (lit "T0xE")) (lit "image/jpeg") (lit "add a lightning bolt")
            (Scenario.start Scenario.png_on_screen)
            (Scenario.response_of [Scenario.text_part (lit "Here you go.");
                                   Scenario.image_part (lit "image/png") (lit "UE5H")])
            {| Sdk.content := Some {| Sdk.parts :=
                 Some [Scenario.text_part (lit "Here you go.");
                       Scenario.image_part (lit "image/png") (lit "UE5H")] |} |}
            []
            {| Sdk.parts := Some [Scenario.text_part (lit "Here you go.");
                                  Scenario.image_part (lit "image/png") (lit "UE5H")] |}
            [Scenario.text_part (lit "Here you go.")]
            {| Sdk.data := Some (lit "UE5H"); Sdk.mimeType := Some (lit "image/png") |}
            None [] _ _ _ _ _)).
  - vm_compute. reflexivity.
  - reflexivity.
  - reflexivity.
  - reflexivity.
  - repeat constructor.
Defined.

(* ================================================================== *)
(** ** More on the orchestrator *)

Section ReplyShapes.

Variable env : Env.

Lemma first_inline_image_shape parts url :
  first_inline_image parts = Some url -> exists mime bytes, url = data_url mime bytes.
Proof.
  induction parts as [|part rest IH]; simpl; [discriminate|].
  destruct (Sdk.inlineData part) as [blob|]; [|exact IH].
  intros H. injection H as <-. now eexists _, _.
Qed.

(** Whatever [editImage] returns is a data URL. *)
Lemma edit_reply_shape evs base64ImageData mimeType prompt url :
  edit_reply env evs base64ImageData mimeType prompt = inr url ->
  exists mime bytes, url = data_url mime bytes.
Proof.
  unfold edit_reply.
  destruct (generateContent_answer env evs (edit_request base64ImageData mimeType prompt))
    as [e|response]; [discriminate|].
  destruct (Sdk.candidates response) as [[|candidate cs]|]; try discriminate.
  destruct (Sdk.content candidate) as [content|]; [|discriminate].
  destruct (Sdk.parts content) as [parts|]; [|discriminate].
  destruct (first_inline_image parts) as [u|] eqn:E; [|discriminate].
  intros H. injection H as <-. eapply first_inline_image_shape; eauto.
Qed.

(** Whatever [generateImageFromText] returns is a data URL. *)
Lemma image_reply_shape evs prompt url :
  image_reply env evs prompt = inr url -> exists mime bytes, url = data_url mime bytes.
Proof.
  unfold image_reply.
  destruct (generateImages_answer env evs (image_request prompt)) as [e|response];
    [discriminate|].
  destruct (Sdk.generatedImages response) as [[|first rest]|]; try discriminate.
  destruct (Sdk.image first) as [image|]; [|discriminate].
  intros H. injection H as <-. now exists (lit "image/jpeg"), (shown_text (Sdk.imageBytes image)).
Qed.

Lemma data_url_not_nil mime bytes : data_url mime bytes <> [].
Proof. discriminate. Qed.

End ReplyShapes.

(** Like [each_reply], keeping what each image call answered. *)
Ltac each_reply_kept :=
  repeat match goal with
         | |- context [match ToString ?env ?x with inl _ => _ | inr _ => _ end] =>
             destruct (ToString env x) eqn:?
         | |- context [match member ?k ?ms with Some _ => _ | None => _ end] =>
             destruct (member k ms) as [[| | | | |]|] eqn:?
         | |- context [match text_reply ?env ?evs ?t with inl _ => _ | inr _ => _ end] =>
             destruct (text_reply env evs t) as [?|[| | | | |]] eqn:?
         | |- context [match edit_reply ?env ?evs ?d ?m ?p with inl _ => _ | inr _ => _ end] =>
             destruct (edit_reply env evs d m p) eqn:?
         | |- context [match image_reply ?env ?evs ?p with inl _ => _ | inr _ => _ end] =>
             destruct (image_reply env evs p) eqn:?
         | |- context [match ?image with Some _ => _ | None => _ end] =>
             is_var image; destruct image
         | |- context [match at_index ?l ?i with Some _ => _ | None => _ end] =>
             destruct (at_index l i) eqn:?
         | _ => progress open_handler
         | _ => rewrite generateTextContent_eq; cbv zeta
         | _ => rewrite editImage_eq; cbv zeta
         | _ => rewrite generateImageFromText_eq; cbv zeta
         end.

(** Closes a goal about a thumbnail that a reply of the gateway produced. *)
Ltac by_reply_shape :=
  match goal with
  | H : edit_reply _ _ _ _ _ = inr ?u |- _ =>
      apply edit_reply_shape in H; destruct H as (? & ? & ->)
  | H : image_reply _ _ _ = inr ?u |- _ =>
      apply image_reply_shape in H; destruct H as (? & ? & ->)
  end.

(** X5. A GenerateAll run that passed validation never ends with both a
    thumbnail and an error: when a thumbnail is stored at the end, the error
    is empty, the text assets are stored, and the thumbnail is a data URL. *)
Theorem generateAll_thumbnail_means_success :
  forall env st,
    blank (videoIdea (ui st)) = false ->
    let fin := run (invoke (handleGenerateAll env)) st in
    thumbnailUrl (ui fin) <> [] ->
    error (ui fin) = []
    /\ generatedContent (ui fin) <> JNull
    /\ exists mime bytes, thumbnailUrl (ui fin) = data_url mime bytes.
Proof.
  intros env st Hb fin. subst fin. open_store st. unfold blank in Hb. open_handler.
  rewrite Hb. unfold seoTitle, shown_value, engine_error.
  each_reply_kept; intros Hurl; try congruence;
    (split; [reflexivity|]); (split; [discriminate|]);
    by_reply_shape; now eexists _, _.
Qed.

Lemma generateAll_thumbnail_means_success_witness :
  let fin := run (invoke (handleGenerateAll Scenario.camera_env))
                 (Scenario.start Scenario.camera_idea) in
  thumbnailUrl (ui fin) = lit "data:image/jpeg;base64,SlBFRw==" /\ error (ui fin) = [].
Proof.
  split; [vm_compute; reflexivity|].
  exact (proj1 (generateAll_thumbnail_means_success Scenario.camera_env
                  (Scenario.start Scenario.camera_idea)
                  ltac:(vm_compute; reflexivity) ltac:(vm_compute; discriminate))).
Defined.

(** X6. Once the text call of a GenerateAll run has returned an object
    with a string title, the text assets stay stored whatever the image call
    does, and the run ends in one of two ways: with a thumbnail and no
    error, or without a thumbnail and with the fixed message of the image
    call that was made ([editImage] with an upload, [generateImageFromText]
    without). *)
Theorem generateAll_after_text_success :
  forall env st members title,
    blank (videoIdea (ui st)) = false ->
    outcome (generateTextContent env (videoIdea (ui st)))
            (run generateAll_transition st) = Normal (JObject members) ->
    member (lit "seoTitle") members = Some (JString title) ->
    let fin := run (invoke (handleGenerateAll env)) st in
    generatedContent (ui fin) = JObject members
    /\ ((thumbnailUrl (ui fin) <> [] /\ error (ui fin) = [])
        \/ (thumbnailUrl (ui fin) = []
            /\ error (ui fin)
               = if has_image (ui st)
                 then lit "Failed to edit image with AI."
                 else lit "Failed to generate thumbnail from AI.")).
Proof.
  intros env st members title Hb Ht Hm fin. subst fin.
  open_store st. revert Ht. unfold blank in Hb. unfold has_image.
  open_handler. rewrite Hb.
  rewrite generateTextContent_eq. cbn [ui events]. cbv zeta.
  destruct (text_reply env evs idea) as [cause|v]; [cbn; discriminate|].
  cbn [fst snd]. intros Hv. injection Hv as ->.
  unfold seoTitle, shown_value. open_handler. rewrite Hm.
  each_reply_kept; (split; [reflexivity|]);
    try (right; split; reflexivity);
    left; (split; [|reflexivity]); by_reply_shape; discriminate.
Qed.

Lemma generateAll_after_text_success_witness :
  let fin := run (invoke (handleGenerateAll
                            MoreSamples.text_only_env))
                 (Scenario.start Scenario.camera_idea) in
  generatedContent (ui fin)
  = JObject [(lit "seoTitle", JString (lit "T")); (lit "description", JString (lit "D"))]
  /\ thumbnailUrl (ui fin) = []
  /\ error (ui fin) = lit "Failed to generate thumbnail from AI.".
Proof.
  pose proof (generateAll_after_text_success
                MoreSamples.text_only_env
                (Scenario.start Scenario.camera_idea)
                [(lit "seoTitle", JString (lit "T")); (lit "description", JString (lit "D"))]
                (lit "T")
                ltac:(vm_compute; reflexivity) ltac:(vm_compute; reflexivity)
                ltac:(vm_compute; reflexivity)) as [Hc _].
  split; [exact Hc|]. split; vm_compute; reflexivity.
Defined.

(** X7. When the text call returns the JSON value [null], GenerateAll
    stores it, fails on reading its title, and shows the engine's message
    for that error: no image call is made, no thumbnail is stored, the
    thumbnail prompt keeps its value and the busy flags are cleared. *)
Theorem generateAll_null_payload :
  forall env st,
    blank (videoIdea (ui st)) = false ->
    outcome (generateTextContent env (videoIdea (ui st)))
            (run generateAll_transition st) = Normal JNull ->
    let fin := run (invoke (handleGenerateAll env)) st in
    error (ui fin) = fault_message env (ReadOfNull (lit "seoTitle"))
    /\ requests (events fin)
       = requests (events st) ++ [Sdk.GenerateContent (text_request (videoIdea (ui st)))]
    /\ generatedContent (ui fin) = JNull
    /\ thumbnailUrl (ui fin) = []
    /\ thumbnailPrompt (ui fin) = thumbnailPrompt (ui st)
    /\ isLoading (ui fin) = false
    /\ isTextLoading (ui fin) = false
    /\ isThumbnailLoading (ui fin) = false.
Proof.
  intros env st Hb Ht fin. subst fin.
  open_store st. revert Ht. unfold blank in Hb. open_handler. rewrite Hb.
  rewrite generateTextContent_eq. cbn [ui events]. cbv zeta.
  destruct (text_reply env evs idea) as [cause|v]; [cbn; discriminate|].
  cbn [fst snd]. intros Hv. injection Hv as ->.
  unfold seoTitle, engine_error. destruct image; open_handler;
    rewrite !requests_app; cbn [requests]; rewrite !app_nil_r; repeat split.
Qed.

Lemma generateAll_null_payload_witness :
  let fin := run (invoke (handleGenerateAll
                            MoreSamples.null_env))
                 (Scenario.start Scenario.camera_idea) in
  error (ui fin) = lit "Cannot read properties of null (reading 'seoTitle')"
  /\ requests (events fin)
     = [Sdk.GenerateContent (text_request (lit "Unboxing a new camera"))].
Proof.
  pose proof (generateAll_null_payload
                MoreSamples.null_env
                (Scenario.start Scenario.camera_idea)
                ltac:(vm_compute; reflexivity) ltac:(vm_compute; reflexivity))
    as (He & Hr & _).
  split; [rewrite He; vm_compute; reflexivity | exact Hr].
Defined.

(** X8. EditThumbnail checks the instruction before the thumbnail: with an
    instruction that is empty or white space only it does what setting the
    error to its first validation message does and nothing more, even when
    there is no thumbnail either; with a proper instruction and no thumbnail
    it does the same with its second message. Setting the error makes no
    provider call and leaves the busy flag and the thumbnail alone. *)
Theorem editThumbnail_validation :
  forall env st,
    (blank (editPrompt (ui st)) = true ->
       invoke (handleEditThumbnail env) st
       = setError (lit "Edit prompt cannot be empty.") st)
    /\ (blank (editPrompt (ui st)) = false ->
        thumbnailUrl (ui st) = [] ->
        invoke (handleEditThumbnail env) st
        = setError (lit "Generate a thumbnail first before editing.") st)
    /\ (forall message,
          events (run (setError message) st) = events st
          /\ isThumbnailLoading (ui (run (setError message) st))
             = isThumbnailLoading (ui st)
          /\ thumbnailUrl (ui (run (setError message) st)) = thumbnailUrl (ui st)
          /\ error (ui (run (setError message) st)) = message).
Proof.
  intros env st. unfold blank. split; [|split].
  - intros Hb. unfold invoke, handleEditThumbnail. now rewrite Hb.
  - intros Hb Hu. unfold invoke, handleEditThumbnail. now rewrite Hb, Hu.
  - intros message. repeat split.
Qed.

Lemma editThumbnail_validation_witness :
  let fin := run (invoke (handleEditThumbnail Scenario.editing_env))
                 (Scenario.start MoreSamples.no_thumbnail_yet) in
  error (ui fin) = lit "Generate a thumbnail first before editing."
  /\ events fin = [].
Proof.
  pose proof (proj1 (proj2 (editThumbnail_validation Scenario.editing_env
                              (Scenario.start MoreSamples.no_thumbnail_yet)))
                ltac:(vm_compute; reflexivity) eq_refl) as H.
  cbv zeta. unfold run. rewrite H. split; reflexivity.
Defined.

(** X9. A RegenerateThumbnail run that passed validation replaces the
    thumbnail when its image call succeeds and keeps the previous thumbnail
    when the call fails, the error then being the fixed message of the call
    made. Either way the quick-edit field ends empty, and the thumbnail
    prompt, the text assets, the idea and the upload are left as they
    were. *)
Theorem regenerateThumbnail_outcome :
  forall env st,
    blank (thumbnailPrompt (ui st)) = false ->
    let call :=
      match userImage (ui st) with
      | Some img => editImage env (Some (data img)) (mimeType img) (thumbnailPrompt (ui st))
      | None => generateImageFromText env (thumbnailPrompt (ui st))
      end in
    let fin := run (invoke (handleRegenerateThumbnail env)) st in
    (forall url,
       outcome call (run regenerate_transition st) = Normal url ->
       thumbnailUrl (ui fin) = url /\ error (ui fin) = [])
    /\ (forall e,
          outcome call (run regenerate_transition st) = Throw e ->
          thumbnailUrl (ui fin) = thumbnailUrl (ui st)
          /\ error (ui fin)
             = if has_image (ui st)
               then lit "Failed to edit image with AI."
               else lit "Failed to generate thumbnail from AI.")
    /\ editPrompt (ui fin) = []
    /\ thumbnailPrompt (ui fin) = thumbnailPrompt (ui st)
    /\ generatedContent (ui fin) = generatedContent (ui st)
    /\ videoIdea (ui fin) = videoIdea (ui st)
    /\ userImage (ui fin) = userImage (ui st).
Proof.
  intros env st Hb call fin. subst call fin. open_store st.
  unfold blank in Hb. unfold has_image. open_handler. rewrite Hb.
  destruct image as [img|]; cbv iota;
    [rewrite !editImage_eq | rewrite !generateImageFromText_eq];
    cbn [ui events]; cbv zeta;
    match goal with |- context [match ?r with inl _ => _ | inr _ => _ end] =>
      destruct r end; open_handler;
    repeat split; intros; try discriminate; congruence.
Qed.

Lemma regenerateThumbnail_outcome_witness :
  let fin := run (invoke (handleRegenerateThumbnail Scenario.down_env))
                 (Scenario.start Scenario.refining) in
  thumbnailUrl (ui fin) = lit "data:image/jpeg;base64,T0xE"
  /\ error (ui fin) = lit "Failed to edit image with AI."
  /\ editPrompt (ui fin) = [].
Proof.
  pose proof (regenerateThumbnail_outcome Scenario.down_env
                (Scenario.start Scenario.refining) ltac:(vm_compute; reflexivity)) as H.
  cbv zeta in H. destruct H as (_ & Hfail & Hedit & _).
  destruct (Hfail (ErrorObject edit_failure) ltac:(vm_compute; reflexivity)) as [Hu He].
  split; [exact Hu|]. split; [exact He | exact Hedit].
Defined.

(* ================================================================== *)
(** ** Copy marks, uploads and sessions *)

Module ControlsFacts.

Import Controls.

Lemma eqb_refl k : Js.eqb k k = true.
Proof. now apply JsFacts.eqb_eq. Qed.

Lemma eqb_neq a b : a <> b -> Js.eqb a b = false.
Proof.
  intros H. destruct (Js.eqb a b) eqn:E; [|reflexivity].
  apply JsFacts.eqb_eq in E. contradiction.
Qed.

Lemma lookup_assign_same key flag m : lookup key (assign key flag m) = Some flag.
Proof.
  induction m as [|[k b] m IH]; simpl.
  - now rewrite eqb_refl.
  - destruct (Js.eqb key k) eqn:E; simpl; [now rewrite eqb_refl|].
    now rewrite E.
Qed.

Lemma lookup_assign_other key other flag m :
  other <> key -> lookup other (assign key flag m) = lookup other m.
Proof.
  intros H. induction m as [|[k b] m IH]; simpl.
  - now rewrite (eqb_neq _ _ H).
  - destruct (Js.eqb key k) eqn:E; simpl.
    + apply JsFacts.eqb_eq in E. subst k. now rewrite (eqb_neq _ _ H).
    + destruct (Js.eqb other k); [reflexivity | exact IH].
Qed.

(** Assigning keeps one entry per key. *)
Lemma assign_keys_unique key flag m :
  NoDup (map fst m) -> NoDup (map fst (assign key flag m)).
Proof.
  induction m as [|[k b] m IH]; simpl; intros H.
  - constructor; [tauto | constructor].
  - inversion H as [|? ? Hk Hm]; subst.
    destruct (Js.eqb key k) eqn:E; simpl.
    + apply JsFacts.eqb_eq in E. subst k. now constructor.
    + constructor; [|now apply IH].
      intros Hin. apply Hk. clear -Hin E.
      induction m as [|[k' b'] m IH]; simpl in *; [|].
      * destruct Hin as [Hin|[]]. subst. now rewrite eqb_refl in E.
      * destruct (Js.eqb key k') eqn:E'; simpl in *.
        -- apply JsFacts.eqb_eq in E'. subst k'. destruct Hin as [Hin|Hin]; [|tauto].
           subst. now rewrite eqb_refl in E.
        -- destruct Hin as [Hin|Hin]; [tauto|]. right. now apply IH.
Qed.

(** The second piece of a data URL cut at its commas. *)
Lemma payload_piece mime payload :
  free_of [44] mime = true ->
  free_of [44] payload = true ->
  at_index (split 44 (data_url mime payload)) 1 = Some payload.
Proof.
  intros Hm Hp. unfold data_url.
  assert (M : ~ In 44 mime) by (apply (DataUrl.free_of_notin _ _ _ Hm); simpl; tauto).
  assert (P : ~ In 44 payload) by (apply (DataUrl.free_of_notin _ _ _ Hp); simpl; tauto).
  replace (lit "data:" ++ mime ++ lit ";base64," ++ payload)
    with ((lit "data:" ++ mime ++ lit ";base64") ++ 44 :: payload)
    by (rewrite <- !app_assoc; reflexivity).
  rewrite DataUrl.split_app.
  2:{ rewrite !in_app_iff. intros [H|[H|H]]; [|tauto|];
      vm_compute in H; intuition discriminate. }
  rewrite DataUrl.split_sep, (JsFacts.split_without 44 payload P). reflexivity.
Qed.

End ControlsFacts.

(** X10. Copying marks the card of the copied field and no other: after
    the handler its card shows the check mark and every other card shows
    what it showed. The timer it sets, due after two seconds, turns that
    card back to the copy icon whatever the state is when it fires, also
    when the same field was copied again in between, and changes no other
    card. *)
Theorem copy_marks_until_timer :
  forall text key s,
    let copy := Controls.handleCopyToClipboard text key s in
    Controls.shows_check (Controls.marked copy) key = true
    /\ (forall other,
          other <> key ->
          Controls.shows_check (Controls.marked copy) other = Controls.shows_check s other)
    /\ Controls.timer_delay copy = 2000
    /\ (forall later, Controls.shows_check (Controls.timer_fires copy later) key = false)
    /\ (forall later other,
          other <> key ->
          Controls.shows_check (Controls.timer_fires copy later) other
          = Controls.shows_check later other)
    /\ (forall text',
          Controls.shows_check
            (Controls.timer_fires copy
               (Controls.marked
                  (Controls.handleCopyToClipboard text' key (Controls.marked copy)))) key
          = false).
Proof.
  intros text key s copy. subst copy.
  unfold Controls.shows_check, Controls.handleCopyToClipboard, Controls.mark_copied.
  cbn [Controls.marked Controls.timer_fires Controls.timer_delay copiedStates].
  repeat split; intros;
    rewrite ?ControlsFacts.lookup_assign_same, ?ControlsFacts.lookup_assign_other
      by assumption; reflexivity.
Qed.

Lemma copy_marks_until_timer_witness :
  Controls.shows_check
    (Controls.marked
       (Controls.handleCopyToClipboard (lit "Old title") (lit "title") Scenario.refining))
    (lit "description")
  = false.
Proof.
  rewrite (proj1 (proj2 (copy_marks_until_timer (lit "Old title") (lit "title")
                           Scenario.refining))
             (lit "description") ltac:(vm_compute; discriminate)).
  reflexivity.
Defined.

(** X11. An uploaded file reaches the provider as it was read: for a reader
    result that is the data URL of [payload], the handler stores [payload]
    with the type and the name the file declares (not the type written in
    the URL), and a RegenerateThumbnail run that passes validation
    afterwards makes its one call to [editImage] with exactly that payload
    and that type. With no file selected the handler changes nothing. *)
Theorem upload_feeds_editImage :
  forall env st file mime payload,
    free_of [44] mime = true ->
    free_of [44] payload = true ->
    blank (thumbnailPrompt (ui st)) = false ->
    let stored := {| data := payload; mimeType := Controls.file_type file;
                     name := Controls.file_name file |} in
    Controls.handleFileChange (Some file) (data_url mime payload)
    = Some (Controls.setUserImage (Some stored))
    /\ userImage (ui (run (Controls.setUserImage (Some stored)) st)) = Some stored
    /\ requests
         (events (run (invoke (handleRegenerateThumbnail env))
                      (run (Controls.setUserImage (Some stored)) st)))
       = requests (events st)
         ++ [Sdk.GenerateContent
               (edit_request (Some payload) (Controls.file_type file)
                  (thumbnailPrompt (ui st)))]
    /\ (forall result, Controls.handleFileChange None result = Some (ret tt)).
Proof.
  intros env st file mime payload Hm Hp Hb stored. subst stored.
  split; [|split; [reflexivity|split; [|reflexivity]]].
  - unfold Controls.handleFileChange. now rewrite ControlsFacts.payload_piece.
  - open_store st. unfold blank in Hb. unfold Controls.setUserImage. open_handler.
    rewrite Hb. rewrite editImage_eq. cbn [ui events]. cbv zeta.
    match goal with |- context [match ?r with inl _ => _ | inr _ => _ end] =>
      destruct r end; open_handler;
      rewrite !requests_app; cbn [requests]; now rewrite ?app_nil_r.
Qed.

Lemma upload_feeds_editImage_witness :
  requests
    (events (run (invoke (handleRegenerateThumbnail Scenario.down_env))
                 (run (Controls.setUserImage
                         (Some {| data := lit "TkVX"; mimeType := lit "image/jpeg";
                                  name := lit "new.jpg" |}))
                      (Scenario.start Scenario.refining))))
  = [Sdk.GenerateContent
       (edit_request (Some (lit "TkVX")) (lit "image/jpeg")
          (lit "A camera on a glacier at dawn"))].
Proof.
  pose proof (upload_feeds_editImage Scenario.down_env (Scenario.start Scenario.refining)
                {| Controls.file_type := lit "image/jpeg"; Controls.file_name := lit "new.jpg" |}
                (lit "image/jpeg") (lit "TkVX")
                ltac:(vm_compute; reflexivity) ltac:(vm_compute; reflexivity)
                ltac:(vm_compute; reflexivity)) as H.
  cbv zeta in H. destruct H as (_ & _ & Hreq & _). exact Hreq.
Defined.

(* ------------------------------------------------------------------ *)
(** *** Invariants of a session *)

Module SessionFacts.

Import Controls.

Lemma style_offered v : existsb (Js.eqb v) THUMBNAIL_STYLES = true -> In v THUMBNAIL_STYLES.
Proof.
  intros H. apply existsb_exists in H. destruct H as (x & Hin & E).
  apply JsFacts.eqb_eq in E. now subst.
Qed.

Lemma panel_has_thumbnail s : refine_panel s = true -> thumbnailUrl s <> [].
Proof.
  unfold refine_panel. intros H E. rewrite E in H. discriminate.
Qed.

Lemma mounted_at_rest : at_rest (ui mounted).
Proof.
  unfold at_rest. cbn. repeat split; try tauto; try (now left).
Qed.

Ltac settle_rest :=
  unfold at_rest in *; cbn [ui events videoIdea generatedContent thumbnailUrl userImage
    thumbnailStyle thumbnailPrompt editPrompt isLoading isTextLoading isThumbnailLoading
    error copiedStates] in *;
  repeat match goal with
         | H : _ /\ _ |- _ => destruct H
         end;
  repeat split; try assumption; try reflexivity; try (now left); try congruence;
  try discriminate;
  try (by_reply_shape; first [ right; now eexists _, _ | discriminate ]).

Section Steps.

Variable env : Env.

Lemma generateAll_at_rest st :
  at_rest (ui st) -> at_rest (ui (run (invoke (handleGenerateAll env)) st)).
Proof.
  intros H. open_store st. open_handler.
  destruct (falsy (trim idea)); [settle_rest|].
  unfold seoTitle, shown_value, engine_error.
  each_reply_kept; settle_rest.
Qed.

Lemma regenerate_at_rest st :
  at_rest (ui st) -> thumbnailUrl (ui st) <> [] ->
  at_rest (ui (run (invoke (handleRegenerateThumbnail env)) st)).
Proof.
  intros H Hu. open_store st. open_handler.
  destruct (falsy (trim prompt0)); [settle_rest|].
  each_reply_kept; settle_rest; tauto.
Qed.

Lemma edit_at_rest st :
  at_rest (ui st) -> thumbnailUrl (ui st) <> [] ->
  at_rest (ui (run (invoke (handleEditThumbnail env)) st)).
Proof.
  intros H Hu. open_store st. open_handler.
  destruct (falsy (trim edit)); [settle_rest|].
  destruct (falsy url); [settle_rest|].
  unfold defined, engine_error.
  each_reply_kept; settle_rest; tauto.
Qed.

Lemma download_ui st : ui (run (invoke (handleDownloadThumbnail env)) st) = ui st.
Proof.
  unfold run, invoke, handleDownloadThumbnail.
  destruct (falsy (thumbnailUrl (ui st))); reflexivity.
Qed.

Lemma perform_at_rest a st :
  at_rest (ui st) -> offered (ui st) a = true -> at_rest (ui (perform env a st)).
Proof.
  intros H Hoff. destruct a; cbn [perform offered] in *.
  - open_store st. settle_rest.
  - destruct (handleFileChange file result) as [m|] eqn:E; [|discriminate].
    unfold handleFileChange in E. destruct file as [f|].
    + destruct (at_index (split 44 result) 1); [|discriminate].
      injection E as <-. open_store st. settle_rest.
    + injection E as <-. exact H.
  - open_store st. settle_rest.
  - apply style_offered in Hoff. open_store st. settle_rest.
  - now apply generateAll_at_rest.
  - open_store st. settle_rest.
  - apply regenerate_at_rest; [exact H | now apply panel_has_thumbnail].
  - open_store st. settle_rest.
  - apply edit_at_rest; [exact H | now apply panel_has_thumbnail].
  - now rewrite download_ui.
  - open_store st. settle_rest.
  - open_store st. settle_rest.
Qed.

Lemma play_at_rest session : forall st st',
  at_rest (ui st) -> play env session st = Some st' -> at_rest (ui st').
Proof.
  induction session as [|a rest IH]; intros st st' H Hplay; cbn [play] in Hplay.
  - injection Hplay as <-. exact H.
  - destruct (offered (ui st) a) eqn:Hoff; [|discriminate].
    eapply IH; [|exact Hplay]. now apply perform_at_rest.
Qed.

Lemma split_second sep s :
  In sep s -> exists p, at_index (split sep s) 1 = Some p.
Proof.
  induction s as [|c s IH]; simpl; [tauto|]. intros H.
  destruct (N.eqb_spec c sep) as [->|Hne].
  - pose proof (JsFacts.split_nonempty sep s) as Hs.
    destruct (split sep s) as [|p ps]; [congruence|]. now exists p.
  - destruct H as [H|H]; [congruence|]. destruct (IH H) as (p & Hp).
    destruct (split sep s) as [|p0 ps]; [discriminate|]. now exists p.
Qed.

(** Cutting a data URL the way EditThumbnail does always finds the image
    data and the part after the colon. *)
Lemma data_url_cuts mime bytes :
  (exists base64Data, at_index (split 44 (data_url mime bytes)) 1 = Some base64Data)
  /\ (exists afterColon,
        at_index (split 58 (hd [] (split 44 (data_url mime bytes)))) 1 = Some afterColon).
Proof.
  split.
  - apply split_second. unfold data_url. rewrite !in_app_iff. right. right. left.
    vm_compute. tauto.
  - apply split_second. unfold data_url. rewrite (DataUrl.split_app 44 (lit "data:")).
    2:{ intros H. vm_compute in H. intuition discriminate. }
    cbn [hd]. apply in_app_iff. left. vm_compute. tauto.
Qed.

Lemma edit_cuts_and_calls st mime bytes :
  thumbnailUrl (ui st) = data_url mime bytes ->
  blank (editPrompt (ui st)) = false ->
  exists base64Data mimeType,
    requests (events (run (invoke (handleEditThumbnail env)) st))
    = requests (events st)
      ++ [Sdk.GenerateContent
            (edit_request (Some base64Data) mimeType (editPrompt (ui st)))].
Proof.
  intros Hu Hb. destruct (data_url_cuts mime bytes) as ((d & Hd) & (a & Ha)).
  open_store st. subst url. unfold blank in Hb. open_handler. rewrite Hb.
  change (falsy (data_url mime bytes)) with false. cbv iota.
  rewrite Hd, Ha. unfold defined. open_handler.
  rewrite editImage_eq. cbn [ui events]. cbv zeta.
  exists d, (hd [] (split 59 a)).
  match goal with |- context [match ?r with inl _ => _ | inr _ => _ end] =>
    destruct r end; open_handler;
    rewrite !requests_app; cbn [requests]; now rewrite ?app_nil_r.
Qed.

Lemma generateAll_handles_errors st :
  (forall v, ToString env v <> inl OtherValue) ->
  only_errors_handled (events st) ->
  only_errors_handled (events (run (invoke (handleGenerateAll env)) st)).
Proof.
  intros Hts H. unfold only_errors_handled in *. open_store st. open_handler.
  destruct (falsy (trim idea)); [exact H|].
  unfold seoTitle, shown_value, engine_error.
  each_reply_kept; rewrite ?in_app_iff; cbn [In];
    intuition (try discriminate);
    match goal with
    | E : ToString env _ = inl ?t, X : ConsoleError None ?t = _ |- _ =>
        injection X as ->; exact (Hts _ E)
    end.
Qed.

Lemma regenerate_handles_errors st :
  only_errors_handled (events st) ->
  only_errors_handled (events (run (invoke (handleRegenerateThumbnail env)) st)).
Proof.
  intros H. unfold only_errors_handled in *. open_store st. open_handler.
  destruct (falsy (trim prompt0)); [exact H|].
  each_reply_kept; rewrite ?in_app_iff; cbn [In]; intuition discriminate.
Qed.

Lemma edit_handles_errors st :
  only_errors_handled (events st) ->
  only_errors_handled (events (run (invoke (handleEditThumbnail env)) st)).
Proof.
  intros H. unfold only_errors_handled in *. open_store st. open_handler.
  destruct (falsy (trim edit)); [exact H|].
  destruct (falsy url); [exact H|].
  unfold defined, engine_error.
  each_reply_kept; rewrite ?in_app_iff; cbn [In]; intuition discriminate.
Qed.

Lemma download_handles_errors st :
  only_errors_handled (events st) ->
  only_errors_handled (events (run (invoke (handleDownloadThumbnail env)) st)).
Proof.
  intros H. unfold only_errors_handled, run, invoke, handleDownloadThumbnail, emit in *.
  destruct (falsy (thumbnailUrl (ui st))); [exact H|]. cbn [fst events].
  rewrite in_app_iff. cbn [In]. intuition discriminate.
Qed.

Lemma perform_handles_errors a st :
  (forall v, ToString env v <> inl OtherValue) ->
  only_errors_handled (events st) ->
  only_errors_handled (events (perform env a st)).
Proof.
  intros Hts H. destruct a; cbn [perform].
  - exact H.
  - destruct (handleFileChange file result) as [m|] eqn:E; [|exact H].
    unfold handleFileChange in E. destruct file as [f|].
    + destruct (at_index (split 44 result) 1); [|discriminate]. injection E as <-. exact H.
    + injection E as <-. exact H.
  - exact H.
  - exact H.
  - now apply generateAll_handles_errors.
  - exact H.
  - now apply regenerate_handles_errors.
  - exact H.
  - now apply edit_handles_errors.
  - now apply download_handles_errors.
  - exact H.
  - exact H.
Qed.

Lemma play_handles_errors session : forall st st',
  (forall v, ToString env v <> inl OtherValue) ->
  only_errors_handled (events st) ->
  play env session st = Some st' -> only_errors_handled (events st').
Proof.
  induction session as [|a rest IH]; intros st st' Hts H Hplay; cbn [play] in Hplay.
  - injection Hplay as <-. exact H.
  - destruct (offered (ui st) a); [|discriminate].
    eapply IH; [exact Hts| |exact Hplay]. now apply perform_handles_errors.
Qed.

End Steps.

(** A session the page goes along with reaches the store it ends in. *)
Lemma outcome_reachable env session :
  play env session mounted <> None ->
  reachable env (MoreSamples.outcome_of env session).
Proof.
  intros H. exists session. unfold MoreSamples.outcome_of.
  destruct (play env session mounted); [reflexivity | congruence].
Qed.

End SessionFacts.

(** X12. Between the actions of any session on the mounted component, with
    each provider call awaited within the action that starts it, no busy
    flag is up, the thumbnail style is one of the six options, the thumbnail
    is either absent or a data URL, and a thumbnail is never on screen
    without text assets. *)
Theorem session_at_rest :
  forall env st,
    Controls.reachable env st ->
    isLoading (ui st) = false
    /\ isTextLoading (ui st) = false
    /\ isThumbnailLoading (ui st) = false
    /\ In (thumbnailStyle (ui st)) Controls.THUMBNAIL_STYLES
    /\ (thumbnailUrl (ui st) = []
        \/ exists mime bytes, thumbnailUrl (ui st) = data_url mime bytes)
    /\ (thumbnailUrl (ui st) <> [] -> generatedContent (ui st) <> JNull).
Proof.
  intros env st (session & Hplay).
  exact (SessionFacts.play_at_rest env session Controls.mounted st
           SessionFacts.mounted_at_rest Hplay).
Qed.

Lemma session_at_rest_witness :
  let st := MoreSamples.outcome_of Scenario.camera_env MoreSamples.editing_session in
  thumbnailUrl (ui st) = lit "data:image/png;base64,UE5H"
  /\ isThumbnailLoading (ui st) = false
  /\ generatedContent (ui st) <> JNull.
Proof.
  pose proof (session_at_rest Scenario.camera_env
                (MoreSamples.outcome_of Scenario.camera_env MoreSamples.editing_session)
                (SessionFacts.outcome_reachable Scenario.camera_env
                   MoreSamples.editing_session ltac:(vm_compute; discriminate))) as (_ & _ & Hbusy & _ & _ & Htext).
  cbv zeta. split; [vm_compute; reflexivity|]. split; [exact Hbusy|].
  apply Htext. vm_compute. discriminate.
Defined.

(** X13. In any session, whenever the page offers the Edit button and the
    instruction is not blank, EditThumbnail finds both the image data and
    the mime type in the stored thumbnail: it makes exactly one provider
    call, and that call carries image data (never [undefined]). The checks
    of the handler for a missing thumbnail and its failure on a thumbnail
    without a colon are out of reach of the page. *)
Theorem session_edit_always_decodes :
  forall env st,
    Controls.reachable env st ->
    Controls.offered (ui st) Controls.ClickEdit = true ->
    blank (editPrompt (ui st)) = false ->
    exists base64Data mimeType,
      requests (events (Controls.perform env Controls.ClickEdit st))
      = requests (events st)
        ++ [Sdk.GenerateContent
              (edit_request (Some base64Data) mimeType (editPrompt (ui st)))].
Proof.
  intros env st (session & Hplay) Hoff Hb.
  pose proof (SessionFacts.play_at_rest env session Controls.mounted st
                SessionFacts.mounted_at_rest Hplay) as (_ & _ & _ & _ & Hurl & _).
  cbn [Controls.offered] in Hoff. apply SessionFacts.panel_has_thumbnail in Hoff.
  destruct Hurl as [Hnil | (mime & bytes & Hurl)]; [contradiction|].
  cbn [Controls.perform]. eapply SessionFacts.edit_cuts_and_calls; eauto.
Qed.

Lemma session_edit_always_decodes_witness :
  exists base64Data mimeType,
    requests
      (events (Controls.perform Scenario.camera_env Controls.ClickEdit
                 (MoreSamples.outcome_of Scenario.camera_env
                    (firstn 3 MoreSamples.editing_session))))
    = requests
        (events (MoreSamples.outcome_of Scenario.camera_env
                   (firstn 3 MoreSamples.editing_session)))
      ++ [Sdk.GenerateContent
            (edit_request (Some base64Data) mimeType (lit "add a lightning bolt"))].
Proof.
  exact (session_edit_always_decodes Scenario.camera_env
           (MoreSamples.outcome_of Scenario.camera_env
              (firstn 3 MoreSamples.editing_session))
           (SessionFacts.outcome_reachable Scenario.camera_env
              (firstn 3 MoreSamples.editing_session) ltac:(vm_compute; discriminate))
           ltac:(vm_compute; reflexivity) ltac:(vm_compute; reflexivity)).
Defined.

(** X14. On an engine whose string conversion throws nothing but [Error]
    objects, [handleError] is never handed anything else in any session:
    every failure of the gateway reaches it as an [Error], so the fallback
    message for unknown errors is never the result of a failure. *)
Theorem session_only_handles_errors :
  forall env st,
    (forall v, ToString env v <> inl OtherValue) ->
    Controls.reachable env st ->
    ~ In (ConsoleError None OtherValue) (events st).
Proof.
  intros env st Hts (session & Hplay).
  refine (SessionFacts.play_handles_errors env session Controls.mounted st Hts _ Hplay).
  unfold Controls.only_errors_handled. cbn. tauto.
Qed.

Lemma session_only_handles_errors_witness :
  ~ In (ConsoleError None OtherValue)
       (events (MoreSamples.outcome_of Scenario.down_env
                  (firstn 2 MoreSamples.editing_session))).
Proof.
  refine (session_only_handles_errors Scenario.down_env
            (MoreSamples.outcome_of Scenario.down_env (firstn 2 MoreSamples.editing_session))
            _ (SessionFacts.outcome_reachable Scenario.down_env
                 (firstn 2 MoreSamples.editing_session) ltac:(vm_compute; discriminate))).
  intros [[| [] | | | |]|]; discriminate.
Defined.

(* ------------------------------------------------------------------ *)
(** *** Provider traffic *)

Section Traffic.

Variable env : Env.

Lemma generateAll_traffic st :
  exists made,
    requests (events (run (invoke (handleGenerateAll env)) st))
    = requests (events st) ++ made
    /\ (made = []
        \/ made = [Sdk.GenerateContent (text_request (videoIdea (ui st)))]
        \/ exists prompt,
             made = [Sdk.GenerateContent (text_request (videoIdea (ui st)));
                     match userImage (ui st) with
                     | Some img =>
                         Sdk.GenerateContent
                           (edit_request (Some (data img)) (mimeType img) prompt)
                     | None => Sdk.GenerateImages (image_request prompt)
                     end]).
Proof.
  open_store st. open_handler.
  destruct (falsy (trim idea)).
  { exists []. now rewrite app_nil_r; split; [|left]. }
  unfold seoTitle, shown_value, engine_error.
  each_reply_kept; rewrite !requests_app; cbn [requests]; rewrite ?app_nil_r;
    rewrite <- ?app_assoc; cbn [app];
    eexists; (split; [reflexivity|]);
    first [ right; left; reflexivity | right; right; eexists; reflexivity ].
Qed.

Lemma single_call_traffic st :
  (exists made,
     requests (events (run (invoke (handleRegenerateThumbnail env)) st))
     = requests (events st) ++ made /\ (List.length made <= 1)%nat)
  /\ (exists made,
        requests (events (run (invoke (handleEditThumbnail env)) st))
        = requests (events st) ++ made /\ (List.length made <= 1)%nat)
  /\ requests (events (run (invoke (handleDownloadThumbnail env)) st))
     = requests (events st).
Proof.
  split; [|split].
  - open_store st. open_handler.
    destruct (falsy (trim prompt0)).
    { exists []. now rewrite app_nil_r; split; [|cbn; lia]. }
    each_reply_kept; rewrite !requests_app; cbn [requests]; rewrite ?app_nil_r;
      eexists; (split; [reflexivity|]); cbn; lia.
  - open_store st. open_handler.
    destruct (falsy (trim edit)).
    { exists []. now rewrite app_nil_r; split; [|cbn; lia]. }
    destruct (falsy url).
    { exists []. now rewrite app_nil_r; split; [|cbn; lia]. }
    unfold defined, engine_error.
    each_reply_kept; rewrite ?requests_app; cbn [requests]; rewrite ?app_nil_r;
      first [ eexists; (split; [reflexivity|]); cbn; lia
            | exists []; rewrite app_nil_r; split; [reflexivity | cbn; lia] ].
  - unfold run, invoke, handleDownloadThumbnail, emit.
    destruct (falsy (thumbnailUrl (ui st))); [reflexivity|]. cbn [fst events].
    rewrite requests_app. cbn. apply app_nil_r.
Qed.

End Traffic.

(** X15. No operation repeats a provider call. A GenerateAll run makes no
    call, or the text call alone, or the text call followed by one image
    call, which goes to [editImage] with the uploaded image when there is an
    upload and to [generateImageFromText] otherwise. RegenerateThumbnail
    and EditThumbnail make at most one call, DownloadThumbnail none. *)
Theorem provider_traffic :
  forall env st,
    (exists made,
       requests (events (run (invoke (handleGenerateAll env)) st))
       = requests (events st) ++ made
       /\ (made = []
           \/ made = [Sdk.GenerateContent (text_request (videoIdea (ui st)))]
           \/ exists prompt,
                made = [Sdk.GenerateContent (text_request (videoIdea (ui st)));
                        match userImage (ui st) with
                        | Some img =>
                            Sdk.GenerateContent
                              (edit_request (Some (data img)) (mimeType img) prompt)
                        | None => Sdk.GenerateImages (image_request prompt)
                        end]))
    /\ (exists made,
          requests (events (run (invoke (handleRegenerateThumbnail env)) st))
          = requests (events st) ++ made /\ (List.length made <= 1)%nat)
    /\ (exists made,
          requests (events (run (invoke (handleEditThumbnail env)) st))
          = requests (events st) ++ made /\ (List.length made <= 1)%nat)
    /\ requests (events (run (invoke (handleDownloadThumbnail env)) st))
       = requests (events st).
Proof.
  intros env st. split.
  - exact (generateAll_traffic env st).
  - exact (single_call_traffic env st).
Qed.
